(** * ZenTime: the AI tool-call dispatcher, provider selection and alarm tick

    A shallow embedding of [src/App.tsx] and [src/services/aiService.ts].

    JavaScript values are modelled at run time, where TypeScript's types are
    erased: a task, an argument payload and a user profile are objects, that
    is finite maps from property names to values ([gmap string JsVal]); a
    property that is absent reads as [undefined].  Numbers are the integers
    (durations in minutes, epoch milliseconds). *)

From Stdlib Require Import ZArith Ascii String List Bool.
From stdpp Require Import base option list strings pretty gmap fin_maps.

Local Open Scope string_scope.
Local Open Scope list_scope.
Local Open Scope Z_scope.

(** ** JavaScript values and the operators the source applies to them *)

Inductive JsVal : Type :=
  | JUndefined
  | JNull
  | JBool (b : bool)
  | JNumber (n : Z)
  | JString (s : string).

#[global] Instance JsVal_eq_dec : EqDecision JsVal.
Proof. solve_decision. Defined.

#[global] Instance JsVal_inhabited : Inhabited JsVal := populate JUndefined.

(** An object: property name to value. *)
Abbreviation JsObj := (gmap string JsVal).

(** [o.k]: reading a property that is absent gives [undefined]. *)
Definition get (o : JsObj) (k : string) : JsVal :=
  match o !! k with
  | Some v => v
  | None => JUndefined
  end.

(** [{ ...o, k: v }] *)
Definition with_prop (k : string) (v : JsVal) (o : JsObj) : JsObj := <[k := v]> o.

(** ToBoolean: [undefined], [null], [false], [0] and [''] are falsy. *)
Definition truthy (v : JsVal) : bool :=
  match v with
  | JUndefined | JNull => false
  | JBool b => b
  | JNumber n => negb (n =? 0)
  | JString s => negb (String.eqb s "")
  end.

(** [a || b] *)
Definition js_or (a b : JsVal) : JsVal := if truthy a then a else b.

(** [a === b] *)
Definition strict_eq (a b : JsVal) : bool := bool_decide (a = b).

(** ToString, as a template literal applies it. *)
Definition to_string (v : JsVal) : string :=
  match v with
  | JUndefined => "undefined"
  | JNull => "null"
  | JBool true => "true"
  | JBool false => "false"
  | JNumber n => pretty n
  | JString s => s
  end.

(** Characters that cannot be written inside a string literal here. *)
Definition dquote : string := String (ascii_of_nat 34) EmptyString.
Definition newline : string := String (ascii_of_nat 10) EmptyString.

(** [String.prototype.toLowerCase] on ASCII text: the letters A to Z are
    folded and every other code unit is kept.  On text with code units from
    128 on the host folds more (accented and other cased letters), so the
    statements that rest on case folding are made for ASCII text
    ([ascii_only]). *)
Definition lower_ascii (c : ascii) : ascii :=
  let n := nat_of_ascii c in
  if (Nat.leb 65 n && Nat.leb n 90)%bool then ascii_of_nat (n + 32) else c.

Fixpoint toLowerCase (s : string) : string :=
  match s with
  | EmptyString => EmptyString
  | String c s' => String (lower_ascii c) (toLowerCase s')
  end.

(** [String.prototype.includes]: [sub] occurs in [s] at some position. *)
Fixpoint includes (s sub : string) : bool :=
  (String.prefix sub s
   || match s with
      | EmptyString => false
      | String _ s' => includes s' sub
      end)%bool.

(** Outcome of code that may throw: [Ok] or the [Error] object thrown, of
    which the caller only reads [message]. *)
Record Exn : Type := Error { message : string }.

Inductive Result (A : Type) : Type :=
  | Ok (a : A)
  | Throw (e : Exn).
Arguments Ok {A} a.
Arguments Throw {A} e.

Definition bind {A B} (r : Result A) (k : A -> Result B) : Result B :=
  match r with
  | Ok a => k a
  | Throw e => Throw e
  end.

Notation "'let*' x ':=' r 'in' k" := (bind r (fun x => k))
  (at level 10, x name, r at level 100, k at level 200).

(** [xs.map(f)] where [f] may throw: the first throw ends the loop. *)
Fixpoint map_result {A B} (f : A -> Result B) (xs : list A) : Result (list B) :=
  match xs with
  | [] => Ok []
  | x :: xs' =>
      let* y := f x in
      let* ys := map_result f xs' in
      Ok (y :: ys)
  end.

(** ** The host: what the JavaScript engine and the browser supply

    [JSON.parse] is read at the two shapes the application uses, an object
    and an array of objects; [randomUUID] and [Date_now] are indexed by the
    number of tasks the running handler has created so far;
    [TypeError_undefined] is the error the engine throws when a property of
    [undefined] is read. *)
Record Host : Type := {
  JSON_parse : string -> Result JsObj;
  JSON_parse_array : string -> Result (list JsObj);
  randomUUID : nat -> string;
  Date_now : nat -> Z;
  TypeError_undefined : Exn
}.

(** *** A concrete host, to run the model on concrete inputs

    Its [JSON.parse] reads the JSON texts the application itself stores and
    the tool schema describes: an object whose members are strings, integers,
    [true], [false] or [null], or an array of such objects.  Any other text
    is reported as a [SyntaxError]; a real engine accepts more (fractions,
    exponents, unicode escapes, nested values) and words its error in its
    own way.  This host only serves to run the model on the examples: every
    theorem about parsing is stated for an arbitrary host. *)
Inductive Token : Type :=
  | TLBrace | TRBrace | TLBrack | TRBrack | TColon | TComma
  | TLit (v : JsVal).

Definition dq : ascii := ascii_of_nat 34.
Definition is_ws (c : ascii) : bool :=
  let n := nat_of_ascii c in
  (Nat.eqb n 32 || Nat.eqb n 9 || Nat.eqb n 10 || Nat.eqb n 13)%bool.
Definition is_digit (c : ascii) : bool :=
  let n := nat_of_ascii c in (Nat.leb 48 n && Nat.leb n 57)%bool.

(** The characters of a string literal after its opening quote, up to the
    closing quote; [acc] holds them in reverse. *)
Fixpoint lex_string (s : string) (acc : list ascii) : option (string * string) :=
  match s with
  | EmptyString => None
  | String c s' =>
      if Ascii.eqb c dq then Some (string_of_list_ascii (rev acc), s')
      else if Ascii.eqb c "\"%char then
        match s' with
        | String e s'' =>
            if Ascii.eqb e dq then lex_string s'' (dq :: acc)
            else if Ascii.eqb e "\"%char then lex_string s'' ("\"%char :: acc)
            else if Ascii.eqb e "/"%char then lex_string s'' ("/"%char :: acc)
            else if Ascii.eqb e "n"%char then lex_string s'' (ascii_of_nat 10 :: acc)
            else if Ascii.eqb e "t"%char then lex_string s'' (ascii_of_nat 9 :: acc)
            else if Ascii.eqb e "r"%char then lex_string s'' (ascii_of_nat 13 :: acc)
            else None
        | EmptyString => None
        end
      else if Nat.ltb (nat_of_ascii c) 32 then None
      else lex_string s' (c :: acc)
  end.

(** A run of digits, as a number, and what follows it. *)
Fixpoint lex_digits (s : string) (acc : Z) : Z * string :=
  match s with
  | String c s' =>
      if is_digit c
      then lex_digits s' (10 * acc + Z.of_nat (nat_of_ascii c - 48))
      else (acc, s)
  | EmptyString => (acc, s)
  end.

Definition lex_number (s : string) : option (Z * string) :=
  match s with
  | String c s' =>
      if negb (is_digit c) then None
      else if Ascii.eqb c "0"%char then
        match s' with
        | String d _ => if is_digit d then None else Some (0, s')
        | EmptyString => Some (0, s')
        end
      else Some (lex_digits s 0)
  | EmptyString => None
  end.

Definition strip_prefix (p s : string) : option string :=
  if String.prefix p s
  then Some (String.substring (String.length p) (String.length s - String.length p) s)
  else None.

Fixpoint lex (fuel : nat) (s : string) : option (list Token) :=
  match fuel with
  | O => None
  | S fuel' =>
      match s with
      | EmptyString => Some []
      | String c s' =>
          let punct (t : Token) := cons t <$> lex fuel' s' in
          if is_ws c then lex fuel' s'
          else if Ascii.eqb c "{"%char then punct TLBrace
          else if Ascii.eqb c "}"%char then punct TRBrace
          else if Ascii.eqb c "["%char then punct TLBrack
          else if Ascii.eqb c "]"%char then punct TRBrack
          else if Ascii.eqb c ":"%char then punct TColon
          else if Ascii.eqb c ","%char then punct TComma
          else if Ascii.eqb c dq then
            match lex_string s' [] with
            | Some (lit, rest) => cons (TLit (JString lit)) <$> lex fuel' rest
            | None => None
            end
          else if Ascii.eqb c "-"%char then
            match lex_number s' with
            | Some (n, rest) => cons (TLit (JNumber (- n))) <$> lex fuel' rest
            | None => None
            end
          else if is_digit c then
            match lex_number s with
            | Some (n, rest) => cons (TLit (JNumber n)) <$> lex fuel' rest
            | None => None
            end
          else
            match strip_prefix "true" s, strip_prefix "false" s, strip_prefix "null" s with
            | Some rest, _, _ => cons (TLit (JBool true)) <$> lex fuel' rest
            | _, Some rest, _ => cons (TLit (JBool false)) <$> lex fuel' rest
            | _, _, Some rest => cons (TLit JNull) <$> lex fuel' rest
            | _, _, _ => None
            end
      end
  end.

(** The members of an object after its opening brace, at least one. *)
Fixpoint parse_members (ts : list Token) (acc : JsObj) : option (JsObj * list Token) :=
  match ts with
  | TLit (JString k) :: TColon :: TLit v :: TComma :: ts' =>
      parse_members ts' (<[k := v]> acc)
  | TLit (JString k) :: TColon :: TLit v :: TRBrace :: ts' =>
      Some (<[k := v]> acc, ts')
  | _ => None
  end.

Definition parse_object (ts : list Token) : option (JsObj * list Token) :=
  match ts with
  | TLBrace :: TRBrace :: ts' => Some (∅, ts')
  | TLBrace :: ts' => parse_members ts' ∅
  | _ => None
  end.

(** The elements of an array after its opening bracket, at least one. *)
Fixpoint parse_elements (fuel : nat) (ts : list Token) : option (list JsObj) :=
  match fuel with
  | O => None
  | S fuel' =>
      match parse_object ts with
      | Some (o, TComma :: ts') => cons o <$> parse_elements fuel' ts'
      | Some (o, [TRBrack]) => Some [o]
      | _ => None
      end
  end.

Definition syntax_error : Exn := Error "Unexpected token in JSON".

Definition parse_flat_object (s : string) : Result JsObj :=
  match lex (S (String.length s)) s ≫= parse_object with
  | Some (o, []) => Ok o
  | _ => Throw syntax_error
  end.

Definition parse_flat_array (s : string) : Result (list JsObj) :=
  match lex (S (String.length s)) s with
  | Some [TLBrack; TRBrack] => Ok []
  | Some (TLBrack :: ts) =>
      match parse_elements (S (List.length ts)) ts with
      | Some os => Ok os
      | None => Throw syntax_error
      end
  | _ => Throw syntax_error
  end.

Definition sample_host : Host := {|
  JSON_parse := parse_flat_object;
  JSON_parse_array := parse_flat_array;
  randomUUID := fun n => "uuid-" +:+ pretty n;
  Date_now := fun n => 1700000000000 + Z.of_nat n;
  TypeError_undefined := Error "Cannot read properties of undefined"
|}.

(** ** services/aiService.ts *)

(** [functionCall]: the name and the argument payload.  The payload is an
    object, as the tool schema has it (type 'object'); a payload that is
    [null] or absent, on which reading a property throws, is not in the
    model. *)
Record FunctionCall : Type := { name : string; args : JsObj }.

(** One part of a response: [text?] and [functionCall?]. *)
Record Part : Type := { text : JsVal; functionCall : option FunctionCall }.

(** [AIResponse], by the part list the handler reads from it,
    [candidates[0].content.parts]; a first candidate is taken to exist. *)
Record AIResponse : Type := { parts : list Part }.

(** What [fetch] resolved to: [ok], [status], [statusText] and the body
    that [response.json()] gives. *)
Record Response (A : Type) : Type := {
  ok : bool;
  status : Z;
  statusText : string;
  json : A
}.
Arguments ok {A} _.
Arguments status {A} _.
Arguments statusText {A} _.
Arguments json {A} _.

(** An entry of [message.tool_calls]: [function.name], [function.arguments]. *)
Record ToolCall : Type := { function_name : string; function_arguments : string }.

(** [data.choices[0].message] of a chat completion. *)
Record Message : Type := { content : JsVal; tool_calls : option (list ToolCall) }.

(** What the two vendor endpoints answer to the request at hand. *)
Record Network : Type := {
  gemini_fetch : Result (Response AIResponse);
  openai_fetch : Result (Response Message)
}.

Definition api_error (vendor : string) {A} (response : Response A) : Exn :=
  Error (vendor +:+ " API error: " +:+ pretty (status response) +:+ " " +:+ statusText response).

Module GeminiProvider.

Definition generateContent (fetched : Result (Response AIResponse)) : Result AIResponse :=
  let* response := fetched in
  if negb (ok response) then Throw (api_error "Gemini" response)
  else Ok (json response).

Definition generateJSON (h : Host) (fetched : Result (Response AIResponse)) : Result JsObj :=
  let* response := fetched in
  if negb (ok response) then Throw (api_error "Gemini" response)
  else
    match parts (json response) with
    | part :: _ => JSON_parse h (to_string (text part))
    | [] => Throw (TypeError_undefined h)
    end.

End GeminiProvider.

Module OpenAIProvider.

Definition convert_call (h : Host) (call : ToolCall) : Result Part :=
  let* a := JSON_parse h (function_arguments call) in
  Ok {| text := JUndefined;
        functionCall := Some {| name := function_name call; args := a |} |}.

Definition convert (h : Host) (data : Message) : Result AIResponse :=
  match tool_calls data with
  | Some calls =>
      let* ps := map_result (convert_call h) calls in
      Ok {| parts := ps |}
  | None => Ok {| parts := [ {| text := content data; functionCall := None |} ] |}
  end.

Definition generateContent (h : Host) (fetched : Result (Response Message)) : Result AIResponse :=
  let* response := fetched in
  if negb (ok response) then Throw (api_error "OpenAI" response)
  else convert h (json response).

Definition generateJSON (h : Host) (fetched : Result (Response Message)) : Result JsObj :=
  let* response := fetched in
  if negb (ok response) then Throw (api_error "OpenAI" response)
  else JSON_parse h (to_string (content (json response))).

End OpenAIProvider.

(** [localStorage]: [getItem] gives [null] for a key that is absent. *)
Abbreviation Storage := (gmap string string).

(** [a || b] on [string | null]: the empty string is falsy. *)
Definition or_else (a b : option string) : option string :=
  match a with
  | Some s => if String.eqb s "" then b else a
  | None => b
  end.

(** The adapter in use: one of the two vendors, or the stand-in that
    [createProvider] builds when no key is found. *)
Inductive AIProvider : Type :=
  | Gemini (apiKey : string)
  | OpenAI (apiKey : string)
  | Mock (aiProvider : string).

Module AIService.

Definition getApiKey (ls : Storage) (provider : string) : option string :=
  if String.eqb (toLowerCase provider) "openai"
  then or_else (or_else (ls !! "openai_api_key") (ls !! "aiApiKey")) None
  else or_else (or_else (ls !! "gemini_api_key") (ls !! "aiApiKey")) None.

Definition createProvider (ls : Storage) : AIProvider :=
  let aiProvider := default "gemini" (or_else (ls !! "aiProvider") (Some "gemini")) in
  match getApiKey ls aiProvider with
  | None => Mock aiProvider
  | Some apiKey =>
      if String.eqb (toLowerCase aiProvider) "openai"
      then OpenAI apiKey
      else Gemini apiKey
  end.

Definition key_not_found (aiProvider : string) : Exn :=
  Error ("API key not found for provider: " +:+ aiProvider
         +:+ ". Please configure your API settings in the Settings panel.").

Definition generateContent (h : Host) (p : AIProvider) (net : Network) : Result AIResponse :=
  match p with
  | Gemini _ => GeminiProvider.generateContent (gemini_fetch net)
  | OpenAI _ => OpenAIProvider.generateContent h (openai_fetch net)
  | Mock aiProvider => Throw (key_not_found aiProvider)
  end.

Definition generateJSON (h : Host) (p : AIProvider) (net : Network) : Result JsObj :=
  match p with
  | Gemini _ => GeminiProvider.generateJSON h (gemini_fetch net)
  | OpenAI _ => OpenAIProvider.generateJSON h (openai_fetch net)
  | Mock aiProvider => Throw (key_not_found aiProvider)
  end.

End AIService.

(** [getAIResponse] and [optimizeSchedule] hand the call to the provider and
    re-throw what it throws. *)
Definition getAIResponse := AIService.generateContent.
Definition optimizeSchedule := AIService.generateJSON.

(** ** App.tsx *)

Inductive Role : Type := user | model.

Module ChatMessage.
Record t : Type := { role : Role; text : string }.
End ChatMessage.

(** The component's state, with the provider the [aiService] singleton
    holds.  A task, a note and the profile are objects. *)
Record App : Type := {
  tasks : list JsObj;
  profile : JsObj;
  generalNotes : list JsObj;
  chatHistory : list ChatMessage.t;
  activeAlarm : option JsObj;
  provider : AIProvider
}.

(** *** Persistence loading *)

(** [saved ? parse(saved) : dflt], with [saved] a [string | null]. *)
Definition load {A} (parse : string -> Result A) (saved : option string) (dflt : A) : Result A :=
  match saved with
  | Some text => if negb (String.eqb text "") then parse text else Ok dflt
  | None => Ok dflt
  end.

Definition default_profile (h : Host) : JsObj :=
  list_to_map [("name", JString "User");
               ("mantra", JString "Stay focused, stay calm.");
               ("joinedDate", JNumber (Date_now h 0))].

(** The three [useState] initialisers of the first render; a throw in one
    of them is a throw of the render. *)
Definition startup (h : Host) (ls : Storage) : Result App :=
  let* saved_tasks := load (JSON_parse_array h) (ls !! "zentime-tasks-v2") [] in
  let* saved_profile := load (JSON_parse h) (ls !! "zentime-profile") (default_profile h) in
  let* saved_notes := load (JSON_parse_array h) (ls !! "zentime-general-notes") [] in
  Ok {| tasks := saved_tasks;
        profile := saved_profile;
        generalNotes := saved_notes;
        chatHistory := [];
        activeAlarm := None;
        provider := AIService.createProvider ls |}.

(** *** Task updates

    The handler passes updater closures to [setTasks]; React runs them in
    the order they were queued.  A closure is kept as its code and what it
    captured. *)
Inductive Update : Type :=
  | AppendTask (newTask : JsObj)     (* prev => [...prev, newTask] *)
  | UpdateNotes (args : JsObj)       (* the updater of update_task_notes *)
  | SetAlarm (args : JsObj).         (* the updater of set_alarm *)

(** [v.toLowerCase()]: a TypeError ([None]) unless [v] is a string. *)
Definition lower (v : JsVal) : option string :=
  match v with
  | JString text => Some (toLowerCase text)
  | _ => None
  end.

(** [t.title.toLowerCase().includes(args.taskTitle.toLowerCase())] *)
Definition title_matches (args t : JsObj) : option bool :=
  a ← lower (get t "title");
  b ← lower (get args "taskTitle");
  Some (includes a b).

Definition update_notes (args t : JsObj) : JsObj :=
  with_prop "estimatedDuration" (js_or (get args "duration") (get t "estimatedDuration"))
    (with_prop "notes" (get args "notes") t).

Definition set_alarm (args t : JsObj) : JsObj :=
  with_prop "alarmEnabled" (JBool true) (with_prop "reminderTime" (get args "time") t).

Definition run_update (u : Update) (prev : list JsObj) : option (list JsObj) :=
  match u with
  | AppendTask newTask => Some (prev ++ [newTask])
  | UpdateNotes a =>
      mapM (fun t => hit ← title_matches a t; Some (if hit : bool then update_notes a t else t)) prev
  | SetAlarm a =>
      mapM (fun t => hit ← title_matches a t; Some (if hit : bool then set_alarm a t else t)) prev
  end.

Fixpoint run_updates (us : list Update) (prev : list JsObj) : option (list JsObj) :=
  match us with
  | [] => Some prev
  | u :: us' => next ← run_update u prev; run_updates us' next
  end.

(** [addTask]: the task object built, for the [n]-th task this handler
    creates. *)
Definition addTask (h : Host) (n : nat) (title category duration notes alarmTime : JsVal) : JsObj :=
  list_to_map [("id", JString (randomUUID h n));
               ("title", title);
               ("notes", js_or notes (JString ""));
               ("category", category);
               ("priority", JString "Medium");
               ("estimatedDuration", duration);
               ("reminderTime", alarmTime);
               ("alarmEnabled", JBool (truthy alarmTime));
               ("completed", JBool false);
               ("createdAt", JNumber (Date_now h n))].

(** *** The dispatch loop of [handleAiCommand] *)

Record Loop : Type := {
  modelResponseText : string;
  queued : list Update;
  created : nat
}.

Definition say (line : string) (st : Loop) : Loop :=
  {| modelResponseText := modelResponseText st +:+ line;
     queued := queued st;
     created := created st |}.

Definition setTasks (u : Update) (st : Loop) : Loop :=
  {| modelResponseText := modelResponseText st;
     queued := queued st ++ [u];
     created := created st |}.

Definition dispatch (h : Host) (fc : FunctionCall) (st : Loop) : Loop :=
  let a := args fc in
  if String.eqb (name fc) "create_task" then
    let t := addTask h (created st) (get a "title") (get a "category")
               (get a "duration") (get a "notes") (get a "alarmTime") in
    let st' := setTasks (AppendTask t) st in
    say (newline +:+ "[System: Created task " +:+ dquote +:+ to_string (get t "title") +:+ dquote +:+ "]")
      {| modelResponseText := modelResponseText st';
         queued := queued st';
         created := S (created st') |}
  else if String.eqb (name fc) "update_task_notes" then
    say (newline +:+ "[System: Optimized " +:+ dquote +:+ to_string (get a "taskTitle") +:+ dquote +:+ "]")
      (setTasks (UpdateNotes a) st)
  else if String.eqb (name fc) "set_alarm" then
    say (newline +:+ "[System: Reminder set for " +:+ to_string (get a "time") +:+ "]")
      (setTasks (SetAlarm a) st)
  else st.

Definition process_part (h : Host) (st : Loop) (part : Part) : Loop :=
  let st1 := if truthy (text part) then say (to_string (text part)) st else st in
  match functionCall part with
  | Some fc => dispatch h fc st1
  | None => st1
  end.

Definition process_parts (h : Host) (ps : list Part) (st : Loop) : Loop :=
  fold_left (process_part h) ps st.

Definition loop_start : Loop :=
  {| modelResponseText := ""; queued := []; created := 0 |}.

(** The text of the catch block. *)
Definition errorMessage (err : Exn) : string :=
  if (negb (String.eqb (message err) "") && includes (message err) "API key")%bool
  then "API key not configured. Please go to Settings to add your API key."
  else if negb (String.eqb (message err) "")
  then "Error: " +:+ message err
  else "Error connecting to AI. Please try again.".

(** [s || fallback] on strings. *)
Definition or_text (s fallback : string) : string :=
  if String.eqb s "" then fallback else s.

(** The white space of ASCII: the code units 9 to 13 and 32.  The host's
    [trim] also strips the white space beyond 127 (the no-break space and
    the like), so the statements that rest on [blank] or [trim] telling a
    blank text from another are made for ASCII text ([ascii_only]). *)
Definition is_space (c : ascii) : bool :=
  let n := nat_of_ascii c in
  (Nat.eqb n 32 || (Nat.leb 9 n && Nat.leb n 13))%bool.

(** [!s.trim()] *)
Fixpoint blank (s : string) : bool :=
  match s with
  | EmptyString => true
  | String c s' => (is_space c && blank s')%bool
  end.

Definition push (r : Role) (line : string) (s : App) : App :=
  {| tasks := tasks s;
     profile := profile s;
     generalNotes := generalNotes s;
     chatHistory := chatHistory s ++ [ {| ChatMessage.role := r; ChatMessage.text := line |} ];
     activeAlarm := activeAlarm s;
     provider := provider s |}.

Definition with_tasks (ts : list JsObj) (s : App) : App :=
  {| tasks := ts;
     profile := profile s;
     generalNotes := generalNotes s;
     chatHistory := chatHistory s;
     activeAlarm := activeAlarm s;
     provider := provider s |}.

(** [handleAiCommand], from the input to the state React renders next.
    [None]: an updater threw while React ran it. *)
Definition handleAiCommand (h : Host) (net : Network) (finalInput : string) (s : App) : option App :=
  if blank finalInput then Some s
  else
    let s1 := push user finalInput s in
    match getAIResponse h (provider s) net with
    | Ok response =>
        let st := process_parts h (parts response) loop_start in
        ts ← run_updates (queued st) (tasks s1);
        Some (push model
                (or_text (modelResponseText st) "I've updated your schedule accordingly.")
                (with_tasks ts s1))
    | Throw err => Some (push model (errorMessage err) s1)
    end.

(** *** The alarm tick *)

Definition pad2 (n : nat) : string :=
  if Nat.ltb n 10 then "0" +:+ pretty n else pretty n.

(** [toLocaleTimeString('en-GB', { hour: '2-digit', minute: '2-digit' })] *)
Definition timeStr (hh mm : nat) : string := pad2 hh +:+ ":" +:+ pad2 mm.

Definition is_ringing (now : string) (t : JsObj) : bool :=
  (truthy (get t "alarmEnabled")
   && strict_eq (get t "reminderTime") (JString now)
   && negb (truthy (get t "completed")))%bool.

(** [activeAlarm?.id] *)
Definition active_id (a : option JsObj) : JsVal :=
  match a with
  | Some t => get t "id"
  | None => JUndefined
  end.

Definition setActiveAlarm (a : option JsObj) (s : App) : App :=
  {| tasks := tasks s;
     profile := profile s;
     generalNotes := generalNotes s;
     chatHistory := chatHistory s;
     activeAlarm := a;
     provider := provider s |}.

(** One run of the interval callback at [hh]:[mm]; the flag tells whether
    the tone was started. *)
Definition tick (hh mm : nat) (s : App) : App * bool :=
  match List.find (is_ringing (timeStr hh mm)) (tasks s) with
  | Some ringing =>
      if negb (strict_eq (active_id (activeAlarm s)) (get ringing "id"))
      then (setActiveAlarm (Some ringing) s, true)
      else (s, false)
  | None => (s, false)
  end.

(** The dismiss button of the alarm dialog. *)
Definition dismiss (s : App) : App := setActiveAlarm None s.

(** The task list once React has run what a dispatched invocation queued. *)
Definition dispatched (h : Host) (fc : FunctionCall) (prev : list JsObj) : option (list JsObj) :=
  run_updates (queued (dispatch h fc loop_start)) prev.

Definition text_part (v : JsVal) : Part := {| text := v; functionCall := None |}.
Definition call_part (fc : FunctionCall) : Part :=
  {| text := JUndefined; functionCall := Some fc |}.

(** ** What the specification says, in its own words *)

(** The acknowledgment line of a recognised invocation, none for others. *)
Definition acknowledgment (fc : FunctionCall) : string :=
  if decide (name fc = "create_task") then
    newline +:+ "[System: Created task " +:+ dquote
      +:+ to_string (get (args fc) "title") +:+ dquote +:+ "]"
  else if decide (name fc = "update_task_notes") then
    newline +:+ "[System: Optimized " +:+ dquote
      +:+ to_string (get (args fc) "taskTitle") +:+ dquote +:+ "]"
  else if decide (name fc = "set_alarm") then
    newline +:+ "[System: Reminder set for " +:+ to_string (get (args fc) "time") +:+ "]"
  else "".

(** What one part adds to the reply: its text as received, then the
    acknowledgment of its invocation. *)
Definition contribution (p : Part) : string :=
  (if truthy (text p) then to_string (text p) else "")
  +:+ match functionCall p with
      | Some fc => acknowledgment fc
      | None => ""
      end.

(** Fuzzy lookup resolving to the first match only: the updated list
    changes the first task that matches and no other. *)
Fixpoint update_first (hit : JsObj -> bool) (f : JsObj -> JsObj) (prev : list JsObj) : list JsObj :=
  match prev with
  | [] => []
  | t :: rest => if hit t then f t :: rest else t :: update_first hit f rest
  end.

(** A malformed invocation treated as absent: the invocations whose
    argument text parses, in order. *)
Definition skip_malformed (h : Host) (calls : list ToolCall) : list Part :=
  omap (fun call =>
          match OpenAIProvider.convert_call h call with
          | Ok p => Some p
          | Throw _ => None
          end) calls.

(** ** Sample data *)

Definition q (s : string) : string := dquote +:+ s +:+ dquote.

Definition sample_task (n : nat) (title : string) : JsObj :=
  addTask sample_host n (JString title) (JString "Private") (JNumber 30) JUndefined JUndefined.

Definition report : JsObj := sample_task 0 "Write Report".
Definition draft : JsObj := sample_task 1 "Write Report Draft".

Definition sample_app (ts : list JsObj) (p : AIProvider) : App :=
  {| tasks := ts;
     profile := default_profile sample_host;
     generalNotes := [];
     chatHistory := [];
     activeAlarm := None;
     provider := p |}.

Definition gemini_says (ps : list Part) : Network :=
  {| gemini_fetch := Ok {| ok := true; status := 200; statusText := "OK"; json := {| parts := ps |} |};
     openai_fetch := Throw (Error "Failed to fetch") |}.

Definition openai_says (r : Response Message) : Network :=
  {| gemini_fetch := Throw (Error "Failed to fetch"); openai_fetch := Ok r |}.

Definition write_report_notes : FunctionCall :=
  {| name := "update_task_notes";
     args := <["notes" := JString "outline first"]> (<["taskTitle" := JString "write report"]> ∅) |}.

(** The response of the specification's scenario: text, a [create_task]
    invocation for the title [X], text. *)
Definition sure_created_done (X : string) (a : JsObj) : list Part :=
  [ text_part (JString "Sure, ");
    call_part {| name := "create_task"; args := <["title" := JString X]> a |};
    text_part (JString "done.") ].

(** A fuzzy match: the task's title contains the wanted title as a
    substring, letter case apart. *)
Definition fuzzy_match (a t : JsObj) : bool :=
  match get t "title", get a "taskTitle" with
  | JString title, JString wanted => includes (toLowerCase title) (toLowerCase wanted)
  | _, _ => false
  end.

(** What [update_task_notes] and [set_alarm] do to a task they match. *)
Definition mutation (fc : FunctionCall) : JsObj -> JsObj :=
  if decide (name fc = "update_task_notes")
  then update_notes (args fc)
  else set_alarm (args fc).

Definition nap_without_time : FunctionCall :=
  {| name := "create_task";
     args := list_to_map [("title", JString "Nap"); ("category", JString "Private");
                          ("duration", JNumber 20); ("alarmTime", JString "")] |}.

Definition standup_at_nine : FunctionCall :=
  {| name := "create_task";
     args := list_to_map [("title", JString "Stand-up"); ("category", JString "Others");
                          ("duration", JNumber 15); ("alarmTime", JString "09:00")] |}.

Definition report_in_zero_minutes : FunctionCall :=
  {| name := "update_task_notes";
     args := list_to_map [("taskTitle", JString "write report"); ("notes", JString "skip it");
                          ("duration", JNumber 0)] |}.

(** The same answer with another [message.content]. *)
Definition with_content (v : JsVal) (response : Response Message) : Response Message :=
  {| ok := ok response;
     status := status response;
     statusText := statusText response;
     json := {| content := v; tool_calls := tool_calls (json response) |} |}.

Definition alarm_arguments : string :=
  "{" +:+ q "taskTitle" +:+ ": " +:+ q "report" +:+ ", " +:+ q "time" +:+ ": " +:+ q "09:00" +:+ "}".

Definition report_alarm : FunctionCall :=
  {| name := "set_alarm";
     args := <["time" := JString "09:00"]> (<["taskTitle" := JString "report"]> ∅) |}.

(** A vendor reply with two tool calls: the arguments of the first are cut
    short, those of the second are well formed. *)
Definition broken_then_alarm : list ToolCall :=
  [ {| function_name := "create_task"; function_arguments := "{" |};
    {| function_name := "set_alarm"; function_arguments := alarm_arguments |} ].

Definition completion (v : JsVal) (calls : option (list ToolCall)) : Response Message :=
  {| ok := true; status := 200; statusText := "OK";
     json := {| content := v; tool_calls := calls |} |}.

(** The provider name [createProvider] reads: [getItem('aiProvider') || 'gemini']. *)
Definition configured_provider (ls : Storage) : string :=
  default "gemini" (or_else (ls !! "aiProvider") (Some "gemini")).

(** The text shown for a missing key. *)
Definition configure_hint : string :=
  "API key not configured. Please go to Settings to add your API key.".

(** A vendor that refuses the key it was sent. *)
Definition key_refused : Response Message :=
  {| ok := false; status := 401; statusText := "Invalid API key";
     json := {| content := JNull; tool_calls := None |} |}.

Definition standup : JsObj :=
  addTask sample_host 0 (JString "Stand-up") (JString "Others") (JNumber 15)
    JUndefined (JString "09:00").

Definition review : JsObj :=
  addTask sample_host 1 (JString "Review") (JString "Others") (JNumber 30)
    JUndefined (JString "09:00").

(** ** More of App.tsx: direct edits, the slash-command composer, the views *)

(** [{ ...t, completed: !t.completed }] *)
Definition toggle (t : JsObj) : JsObj :=
  with_prop "completed" (JBool (negb (truthy (get t "completed")))) t.

(** The updater of [toggleTask(id)]. *)
Definition toggleTask (id : JsVal) (prev : list JsObj) : list JsObj :=
  List.map (fun t => if strict_eq (get t "id") id then toggle t else t) prev.

(** The updater of [deleteTask(id)]. *)
Definition deleteTask (id : JsVal) (prev : list JsObj) : list JsObj :=
  List.filter (fun t => negb (strict_eq (get t "id") id)) prev.

(** The updater of [updateGeneralNote(id, content)]. *)
Definition updateGeneralNote (id : JsVal) (content' : string) (prev : list JsObj) : list JsObj :=
  List.map (fun n => if strict_eq (get n "id") id
                     then with_prop "content" (JString content') n else n) prev.

(** The updater of [deleteGeneralNote(id)]. *)
Definition deleteGeneralNote (id : JsVal) (prev : list JsObj) : list JsObj :=
  List.filter (fun n => negb (strict_eq (get n "id") id)) prev.

Record SlashCommand : Type := { cmd : string; desc : string; placeholder : string }.

Definition SLASH_COMMANDS : list SlashCommand :=
  [ {| cmd := "/task"; desc := "Create a new task"; placeholder := "/task [title] [category]" |};
    {| cmd := "/note"; desc := "Add notes to a task"; placeholder := "/note [task name] [content]" |};
    {| cmd := "/alarm"; desc := "Set an alarm"; placeholder := "/alarm [task name] [HH:mm]" |};
    {| cmd := "/optimize"; desc := "Let AI optimize your day"; placeholder := "/optimize" |} ].

(** The state of the chat input: [userInput], [showSuggestions],
    [suggestionIndex]. *)
Record Composer : Type := {
  userInput : string;
  showSuggestions : bool;
  suggestionIndex : Z
}.

(** [Array.prototype.findIndex]: the first index at which [f] holds, or -1. *)
Fixpoint findIndex {A} (f : A -> bool) (l : list A) : Z :=
  match l with
  | [] => -1
  | x :: l' => if f x then 0 else
                 let i := findIndex f l' in
                 if i =? -1 then -1 else i + 1
  end.

(** [l[i]]: [undefined] ([None]) outside the array. *)
Definition at_index {A} (l : list A) (i : Z) : option A :=
  if i <? 0 then None else l !! Z.to_nat i.

Definition handleInputChange (val : string) (c : Composer) : Composer :=
  if String.prefix "/" val then
    let search := toLowerCase val in
    let matchIndex := findIndex (fun sc => String.prefix search (cmd sc)) SLASH_COMMANDS in
    {| userInput := val;
       showSuggestions := true;
       suggestionIndex := if negb (matchIndex =? -1) then matchIndex else suggestionIndex c |}
  else
    {| userInput := val; showSuggestions := false; suggestionIndex := suggestionIndex c |}.

(** [handleKeyDown]: the next state and whether [preventDefault] was called
    (an Enter that is not prevented submits the form).  [None]: reading
    [.cmd] of [undefined] threw. *)
Definition handleKeyDown (key : string) (c : Composer) : option (Composer * bool) :=
  let n := Z.of_nat (length SLASH_COMMANDS) in
  if showSuggestions c then
    if String.eqb key "ArrowDown" then
      Some ({| userInput := userInput c; showSuggestions := true;
               suggestionIndex := Z.rem (suggestionIndex c + 1) n |}, true)
    else if String.eqb key "ArrowUp" then
      Some ({| userInput := userInput c; showSuggestions := true;
               suggestionIndex := Z.rem (suggestionIndex c - 1 + n) n |}, true)
    else if (String.eqb key "Enter" || String.eqb key "Tab")%bool then
      sc ← at_index SLASH_COMMANDS (suggestionIndex c);
      Some ({| userInput := cmd sc +:+ " "; showSuggestions := false;
               suggestionIndex := suggestionIndex c |}, true)
    else if String.eqb key "Escape" then
      Some ({| userInput := userInput c; showSuggestions := false;
               suggestionIndex := suggestionIndex c |}, false)
    else Some (c, false)
  else Some (c, false).

Definition selectSuggestion (index : Z) (c : Composer) : option Composer :=
  sc ← at_index SLASH_COMMANDS index;
  Some {| userInput := cmd sc +:+ " "; showSuggestions := false;
          suggestionIndex := suggestionIndex c |}.

(** [String.prototype.trim], on the ASCII white space. *)
Fixpoint trim_start (s : string) : string :=
  match s with
  | EmptyString => EmptyString
  | String c s' => if is_space c then trim_start s' else s
  end.

Fixpoint trim_end (s : string) : string :=
  match s with
  | EmptyString => EmptyString
  | String c s' =>
      let r := trim_end s' in
      if (is_space c && String.eqb r "")%bool then EmptyString else String c r
  end.

Definition trim (s : string) : string := trim_end (trim_start s).

(** [xs.filter(f)] where [f] may throw. *)
Fixpoint filter_opt {A} (f : A -> option bool) (xs : list A) : option (list A) :=
  match xs with
  | [] => Some []
  | x :: xs' =>
      keep ← f x;
      rest ← filter_opt f xs';
      Some (if keep : bool then x :: rest else rest)
  end.

(** [t.title.toLowerCase().includes(query) || t.notes?.toLowerCase().includes(query)],
    as [filter] reads it. *)
Definition search_hit (query : string) (t : JsObj) : option bool :=
  title ← lower (get t "title");
  if includes title query then Some true
  else match get t "notes" with
       | JUndefined | JNull => Some false
       | v => notes ← lower v; Some (includes notes query)
       end.

(** The [filteredTasks] memo.  [None]: the callback threw. *)
Definition filteredTasks (searchQuery : string) (ts : list JsObj) : option (list JsObj) :=
  let query := trim (toLowerCase searchQuery) in
  if String.eqb query "" then Some ts
  else filter_opt (search_hit query) ts.

(** [Object.values(TaskCategory)] *)
Definition TaskCategory_values : list string :=
  ["Private"; "Education"; "Entertainment"; "Others"].

(** The [categoryStats] memo: [name] and [value] of each slice. *)
Definition categoryStats (ts : list JsObj) : list (string * nat) :=
  List.filter (fun d => Nat.ltb 0 (snd d))
    (List.map (fun cat =>
                 (cat, length (List.filter (fun t => strict_eq (get t "category") (JString cat)) ts)))
       TaskCategory_values).

(** *** The settings dialog *)

(** The two [onChange] handlers. *)
Definition chooseProvider (v : string) (ls : Storage) : Storage := <["aiProvider" := v]> ls.
Definition enterApiKey (v : string) (ls : Storage) : Storage := <["aiApiKey" := v]> ls.

(** The Save Settings button. *)
Definition saveSettings (ls : Storage) : Storage :=
  let ls1 := <["aiProvider" := default "gemini" (or_else (ls !! "aiProvider") (Some "gemini"))]> ls in
  <["aiApiKey" := default "" (or_else (ls1 !! "aiApiKey") (Some ""))]> ls1.

(** [AIService.updateProvider] *)
Definition updateProvider (ls : Storage) (s : App) : App :=
  {| tasks := tasks s;
     profile := profile s;
     generalNotes := generalNotes s;
     chatHistory := chatHistory s;
     activeAlarm := activeAlarm s;
     provider := AIService.createProvider ls |}.

(** A run of ticks, each at its own time, with nothing else in between. *)
Fixpoint ticks (times : list (nat * nat)) (s : App) : App :=
  match times with
  | [] => s
  | (hh, mm) :: rest => ticks rest (fst (tick hh mm s))
  end.

(** The [create_task] invocations of a response. *)
Definition is_create (p : Part) : bool :=
  match functionCall p with
  | Some fc => String.eqb (name fc) "create_task"
  | None => false
  end.

Definition is_append (u : Update) : bool :=
  match u with
  | AppendTask _ => true
  | _ => false
  end.

(** A task whose alarm is enabled has a reminder time. *)
Definition alarm_has_time (t : JsObj) : Prop :=
  truthy (get t "alarmEnabled") = true -> truthy (get t "reminderTime") = true.

(** A [set_alarm] invocation names a time. *)
Definition alarm_names_time (p : Part) : Prop :=
  forall fc : FunctionCall,
    functionCall p = Some fc -> name fc = "set_alarm" -> truthy (get (args fc) "time") = true.

(** The properties of a task that the dispatcher rewrites. *)
Definition rewritten_keys : list string :=
  ["notes"; "estimatedDuration"; "reminderTime"; "alarmEnabled"].

Definition set_alarm_without_time : FunctionCall :=
  {| name := "set_alarm"; args := <["taskTitle" := JString "report"]> ∅ |}.

(** A queued update that cannot break [alarm_has_time]. *)
Definition update_names_time (u : Update) : Prop :=
  match u with
  | AppendTask t => alarm_has_time t
  | UpdateNotes _ => True
  | SetAlarm a => truthy (get a "time") = true
  end.

(** The suggestion index points into [SLASH_COMMANDS]. *)
Definition index_in_range (c : Composer) : Prop :=
  0 <= suggestionIndex c < Z.of_nat (length SLASH_COMMANDS).

Definition composer_start : Composer :=
  {| userInput := ""; showSuggestions := false; suggestionIndex := 0 |}.

(** The query as [filteredTasks] uses it. *)
Definition normal_query (searchQuery : string) : string := trim (toLowerCase searchQuery).

(** A task whose title is a string and whose notes are a string or absent. *)
Definition searchable (t : JsObj) : Prop :=
  (exists title : string, get t "title" = JString title)
  /\ (get t "notes" = JUndefined \/ get t "notes" = JNull
      \/ exists notes : string, get t "notes" = JString notes).

(** The title or the notes contain the query, letter case of the task apart. *)
Definition mentions (query : string) (t : JsObj) : bool :=
  (match get t "title" with
   | JString title => includes (toLowerCase title) query
   | _ => false
   end
   || match get t "notes" with
      | JString notes => includes (toLowerCase notes) query
      | _ => false
      end)%bool.

(** The task's category is one of the four of [TaskCategory]. *)
Definition has_known_category (t : JsObj) : bool :=
  existsb (fun cat => strict_eq (get t "category") (JString cat)) TaskCategory_values.

(** The sum of the slices of the chart. *)
Definition slices_total (stats : list (string * nat)) : nat :=
  list_sum (List.map snd stats).

(** ** sw.js: the offline cache

    Requests are GET requests to the worker's own origin, told apart by their
    path.  A cache maps paths to responses; the cache storage holds the named
    caches in the order they were created, which is the order [caches.match]
    searches them in.  [fetch] either resolves to a response or rejects
    ([None]). *)
Module ServiceWorker.

Definition CACHE_NAME : string := "zentime-v1".

Definition urlsToCache : list string :=
  ["/"; "/index.html"; "/manifest.json"; "/zentime_icon.png"].

Record Resp : Type := { resp_status : Z; resp_body : string }.

(** [response.ok] *)
Definition resp_ok (r : Resp) : bool := (200 <=? resp_status r) && (resp_status r <=? 299).

Abbreviation Cache := (gmap string Resp).
Abbreviation CacheStorage := (list (string * Cache)).
Abbreviation Net := (string -> option Resp).

Record Request : Type := { mode : string; url : string }.

(** [caches.match(path)]: the first cache, in creation order, that holds it. *)
Fixpoint caches_match (cs : CacheStorage) (path : string) : option Resp :=
  match cs with
  | [] => None
  | (_, c) :: cs' =>
      match c !! path with
      | Some r => Some r
      | None => caches_match cs' path
      end
  end.

(** [caches.open(name)] creates the cache when there is none of that name. *)
Definition caches_open (cache_name : string) (cs : CacheStorage) : CacheStorage :=
  if existsb (fun nc => String.eqb (fst nc) cache_name) cs then cs
  else cs ++ [(cache_name, ∅)].

(** The fetches of [cache.addAll]: every one must resolve to an ok response. *)
Fixpoint fetch_all (net : Net) (paths : list string) : option (list (string * Resp)) :=
  match paths with
  | [] => Some []
  | p :: paths' =>
      r ← net p;
      if resp_ok r then cons (p, r) <$> fetch_all net paths' else None
  end.

Definition put_all (entries : list (string * Resp)) (c : Cache) : Cache :=
  fold_left (fun acc e => <[fst e := snd e]> acc) entries c.

Definition in_cache (cache_name : string) (f : Cache -> Cache) (cs : CacheStorage) : CacheStorage :=
  List.map (fun nc => if String.eqb (fst nc) cache_name then (fst nc, f (snd nc)) else nc) cs.

(** The install handler: the storage after it, and whether the promise
    given to [waitUntil] was fulfilled. *)
Definition install (net : Net) (cs : CacheStorage) : CacheStorage * bool :=
  let cs1 := caches_open CACHE_NAME cs in
  match fetch_all net urlsToCache with
  | Some entries => (in_cache CACHE_NAME (put_all entries) cs1, true)
  | None => (cs1, false)
  end.

(** The fetch handler: what the page receives, [None] for a network error. *)
Definition onfetch (net : Net) (cs : CacheStorage) (request : Request) : option Resp :=
  if String.eqb (mode request) "navigate" then
    match caches_match cs "/index.html" with
    | Some r => Some r
    | None => net (url request)
    end
  else
    match net (url request) with
    | Some r => Some r
    | None =>
        match caches_match cs (url request) with
        | Some r => Some r
        | None => caches_match cs "/index.html"
        end
    end.

(** The activate handler. *)
Definition activate (cs : CacheStorage) : CacheStorage :=
  List.filter (fun nc => negb (negb (String.eqb (fst nc) CACHE_NAME))) cs.

Definition offline : Net := fun _ => None.

(** A network that serves every path. *)
Definition online : Net := fun p => Some {| resp_status := 200; resp_body := "body of " +:+ p |}.

End ServiceWorker.

(** ** ASCII text

    Text whose code units are all below 128.  On it [toLowerCase], [trim] and
    [blank] above are what the host computes. *)
Definition ascii_only (s : string) : bool :=
  forallb (fun c => Nat.ltb (nat_of_ascii c) 128) (list_ascii_of_string s).

(** A value that, when it is a string, is ASCII text. *)
Definition ascii_value (v : JsVal) : Prop :=
  forall s : string, v = JString s -> ascii_only s = true.

(** A task whose title is an ASCII string. *)
Definition ascii_titled (t : JsObj) : Prop :=
  exists title : string, get t "title" = JString title /\ ascii_only title = true.

(** A task that can be searched, with ASCII title and notes. *)
Definition searchable_ascii (t : JsObj) : Prop :=
  searchable t /\ ascii_value (get t "title") /\ ascii_value (get t "notes").

(** A vendor reply with two tool calls whose arguments are both cut short. *)
Definition broken_twice : list ToolCall :=
  [ {| function_name := "set_alarm"; function_arguments := alarm_arguments |};
    {| function_name := "create_task"; function_arguments := "{" |};
    {| function_name := "set_alarm"; function_arguments := "[" |} ].

(** Nothing usable is stored under a key: [getItem] gives [null] or the
    empty string, which [saved ? ... : ...] takes alike. *)
Definition nothing_saved (ls : Storage) (k : string) : Prop :=
  ls !! k = None \/ ls !! k = Some "".

(** * Properties *)

(** ** The sample host on concrete texts *)

Example parse_object_members :
  parse_flat_object ("{ " +:+ q "taskTitle" +:+ ": " +:+ q "a\nb" +:+ ", " +:+ q "duration" +:+ ":-30}")
  = Ok (<["duration" := JNumber (-30)]> (<["taskTitle" := JString ("a" +:+ newline +:+ "b")]> ∅)).
Proof. vm_compute. reflexivity. Qed.

Example parse_object_cut_short : parse_flat_object "{" = Throw syntax_error.
Proof. vm_compute. reflexivity. Qed.

Example parse_object_leading_zero :
  parse_flat_object ("{" +:+ q "a" +:+ ":01}") = Throw syntax_error.
Proof. vm_compute. reflexivity. Qed.

Example parse_object_trailing_comma :
  parse_flat_object ("{" +:+ q "a" +:+ ":1,}") = Throw syntax_error.
Proof. vm_compute. reflexivity. Qed.

Example parse_array_of_objects :
  parse_flat_array ("[{},{" +:+ q "a" +:+ ":true}]") = Ok [∅; <["a" := JBool true]> ∅].
Proof. vm_compute. reflexivity. Qed.

Example parse_alarm_arguments :
  parse_flat_object alarm_arguments = Ok (args report_alarm).
Proof. vm_compute. reflexivity. Qed.

Example includes_ignoring_case :
  includes (toLowerCase "Write Report Draft") (toLowerCase "write report") = true
  /\ includes (toLowerCase "Write Report") (toLowerCase "draft") = false.
Proof. split; reflexivity. Qed.

Example timeStr_padded : timeStr 9 0 = "09:00" /\ timeStr 23 59 = "23:59".
Proof. split; vm_compute; reflexivity. Qed.

Example run1 :
  List.map (fun o => get o "notes") <$> dispatched sample_host write_report_notes [report; draft]
  = Some [JString "outline first"; JString "outline first"].
Proof. vm_compute. reflexivity. Qed.

(** ** Strings and objects *)

Lemma append_assoc (a b c : string) : (a +:+ b) +:+ c = a +:+ (b +:+ c).
Proof.
  induction a as [|ch a IH]; [reflexivity|].
  change (String ch ((a +:+ b) +:+ c) = String ch (a +:+ (b +:+ c))).
  now rewrite IH.
Qed.

Lemma append_nil_r (a : string) : a +:+ "" = a.
Proof.
  induction a as [|ch a IH]; [reflexivity|].
  change (String ch (a +:+ "") = String ch a). now rewrite IH.
Qed.

Lemma eqb_decide (a b : string) : String.eqb a b = bool_decide (a = b).
Proof.
  destruct (String.eqb_spec a b) as [E|E].
  - now rewrite bool_decide_eq_true_2.
  - now rewrite bool_decide_eq_false_2.
Qed.

Lemma get_with_prop (k k' : string) (v : JsVal) (o : JsObj) :
  get (with_prop k v o) k' = if decide (k = k') then v else get o k'.
Proof.
  unfold get, with_prop. rewrite lookup_insert.
  destruct (decide (k = k')); reflexivity.
Qed.

(** What [addTask] stores, property by property. *)
Lemma addTask_fields (h : Host) (n : nat) (title category duration notes alarmTime : JsVal) :
  let t := addTask h n title category duration notes alarmTime in
  get t "id" = JString (randomUUID h n)
  /\ get t "title" = title
  /\ get t "notes" = js_or notes (JString "")
  /\ get t "estimatedDuration" = duration
  /\ get t "reminderTime" = alarmTime
  /\ get t "alarmEnabled" = JBool (truthy alarmTime)
  /\ get t "completed" = JBool false.
Proof. repeat split; vm_compute; reflexivity. Qed.

(** ** The dispatch loop *)

Lemma process_parts_app (h : Host) (ps1 ps2 : list Part) (st : Loop) :
  process_parts h (ps1 ++ ps2) st = process_parts h ps2 (process_parts h ps1 st).
Proof. unfold process_parts. apply fold_left_app. Qed.

Lemma dispatch_text (h : Host) (fc : FunctionCall) (st : Loop) :
  modelResponseText (dispatch h fc st) = modelResponseText st +:+ acknowledgment fc.
Proof.
  unfold dispatch, acknowledgment. rewrite !eqb_decide.
  destruct (decide (name fc = "create_task")) as [E1|E1].
  { rewrite bool_decide_eq_true_2 by assumption. simpl.
    now destruct (addTask_fields h (created st) (get (args fc) "title")
            (get (args fc) "category") (get (args fc) "duration")
            (get (args fc) "notes") (get (args fc) "alarmTime")) as (_ & -> & _). }
  rewrite bool_decide_eq_false_2 by assumption.
  destruct (decide (name fc = "update_task_notes")) as [E2|E2].
  { rewrite bool_decide_eq_true_2 by assumption. reflexivity. }
  rewrite bool_decide_eq_false_2 by assumption.
  destruct (decide (name fc = "set_alarm")) as [E3|E3].
  { rewrite bool_decide_eq_true_2 by assumption. reflexivity. }
  rewrite bool_decide_eq_false_2 by assumption.
  now rewrite append_nil_r.
Qed.

Lemma process_part_text (h : Host) (st : Loop) (p : Part) :
  modelResponseText (process_part h st p) = modelResponseText st +:+ contribution p.
Proof.
  unfold process_part, contribution.
  destruct (functionCall p) as [fc|].
  - rewrite dispatch_text. destruct (truthy (text p)); simpl.
    + now rewrite append_assoc.
    + reflexivity.
  - destruct (truthy (text p)); simpl; now rewrite ?append_nil_r.
Qed.

Lemma process_parts_text (h : Host) (ps : list Part) (st : Loop) :
  modelResponseText (process_parts h ps st)
  = modelResponseText st +:+ String.concat "" (List.map contribution ps).
Proof.
  revert st. induction ps as [|p ps IH]; intros st.
  - simpl. now rewrite append_nil_r.
  - change (process_parts h (p :: ps) st) with (process_parts h ps (process_part h st p)).
    rewrite IH, process_part_text, append_assoc. f_equal.
    destruct ps as [|p' ps']; simpl; [now rewrite append_nil_r | reflexivity].
Qed.

Lemma run_updates_append (us : list Update) (t : JsObj) (prev : list JsObj) :
  run_updates (AppendTask t :: us) prev = run_updates us (prev ++ [t]).
Proof. reflexivity. Qed.

Lemma generalNotes_kept (h : Host) (net : Network) (input : string) (s s' : App) :
  handleAiCommand h net input s = Some s' -> generalNotes s' = generalNotes s.
Proof.
  unfold handleAiCommand. destruct (blank input); [intros [= <-]; reflexivity|].
  destruct (getAIResponse h (provider s) net) as [r|e]; [|intros [= <-]; reflexivity].
  destruct (run_updates _ _) as [ts|]; simpl; [intros [= <-]; reflexivity | discriminate].
Qed.

Lemma sure_created_done_text (h : Host) (X : string) (a : JsObj) :
  modelResponseText (process_parts h (sure_created_done X a) loop_start)
  = "Sure, " +:+ newline +:+ "[System: Created task " +:+ dquote +:+ X +:+ dquote +:+ "]done.".
Proof.
  rewrite process_parts_text. unfold sure_created_done, contribution, acknowledgment.
  cbn [List.map text functionCall text_part call_part name args String.concat].
  unfold get. rewrite lookup_insert_eq.
  cbn [truthy to_string negb String.eqb Ascii.eqb Bool.eqb modelResponseText loop_start].
  rewrite decide_True by reflexivity.
  rewrite ?append_assoc. reflexivity.
Qed.

Lemma handle_ok (h : Host) (net : Network) (input : string) (s : App) (r : AIResponse) :
  blank input = false ->
  getAIResponse h (provider s) net = Ok r ->
  handleAiCommand h net input s
  = ts ← run_updates (queued (process_parts h (parts r) loop_start)) (tasks s);
    Some (push model
            (or_text (modelResponseText (process_parts h (parts r) loop_start))
               "I've updated your schedule accordingly.")
            (with_tasks ts (push user input s))).
Proof. intros Hb Hr. unfold handleAiCommand. now rewrite Hb, Hr. Qed.

Lemma gemini_ok (h : Host) (key : string) (net : Network) (response : Response AIResponse) :
  gemini_fetch net = Ok response -> ok response = true ->
  getAIResponse h (Gemini key) net = Ok (json response).
Proof.
  intros Hf Hok. unfold getAIResponse, AIService.generateContent, GeminiProvider.generateContent.
  rewrite Hf. simpl. now rewrite Hok.
Qed.

(** C3. The reply is built in part order: the text after the loop is the
    text before it followed by what each part adds, in order; a text part
    adds its text exactly as received and an invocation adds its
    acknowledgment line.  The parts text "Sure, ", create_task for the title
    X, text "done." give exactly: Sure, / newline / [System: Created task
    "X"]done. and that is the reply the chat shows. *)
Theorem reply_in_part_order (h : Host) :
  (forall (ps : list Part) (st : Loop),
      modelResponseText (process_parts h ps st)
      = modelResponseText st +:+ String.concat "" (List.map contribution ps))
  /\ (forall s : string, contribution (text_part (JString s)) = s)
  /\ (forall fc : FunctionCall, contribution (call_part fc) = acknowledgment fc)
  /\ (forall (X : string) (a : JsObj),
         let expected := "Sure, " +:+ newline +:+ "[System: Created task "
                           +:+ dquote +:+ X +:+ dquote +:+ "]done." in
         modelResponseText (process_parts h (sure_created_done X a) loop_start) = expected
         /\ forall (net : Network) (response : Response AIResponse) (input key : string) (s : App),
             provider s = Gemini key ->
             gemini_fetch net = Ok response ->
             ok response = true ->
             parts (json response) = sure_created_done X a ->
             blank input = false ->
             exists s', handleAiCommand h net input s = Some s'
                        /\ chatHistory s'
                           = chatHistory s
                               ++ [ {| ChatMessage.role := user; ChatMessage.text := input |};
                                    {| ChatMessage.role := model; ChatMessage.text := expected |} ]).
Proof.
  split; [apply process_parts_text|].
  split.
  { intros s. unfold contribution, text_part. cbn [text functionCall truthy to_string].
    rewrite append_nil_r. destruct s; reflexivity. }
  split; [reflexivity|].
  intros X a expected. split; [apply sure_created_done_text|].
  intros net response input key s Hp Hf Hok Hps Hb.
  rewrite (handle_ok h net input s (json response)) by (rewrite ?Hp; auto using gemini_ok).
  rewrite Hps, sure_created_done_text. fold expected.
  eexists. split.
  - unfold sure_created_done, process_parts. cbn. reflexivity.
  - cbn. rewrite <- app_assoc. reflexivity.
Qed.

Lemma reply_in_part_order_witness :
  let s := sample_app [] (Gemini "k") in
  exists s',
    handleAiCommand sample_host (gemini_says (sure_created_done "X" ∅)) "plan my day" s = Some s'
    /\ chatHistory s'
       = [ {| ChatMessage.role := user; ChatMessage.text := "plan my day" |};
           {| ChatMessage.role := model;
              ChatMessage.text := "Sure, " +:+ newline +:+ "[System: Created task "
                                    +:+ dquote +:+ "X" +:+ dquote +:+ "]done." |} ].
Proof.
  intros s.
  exact (proj2 (proj2 (proj2 (proj2 (reply_in_part_order sample_host))) "X" ∅)
           (gemini_says (sure_created_done "X" ∅)) _ "plan my day" "k" s
           eq_refl eq_refl eq_refl eq_refl eq_refl).
Defined.

Lemma dispatch_unknown (h : Host) (fc : FunctionCall) (st : Loop) :
  name fc <> "create_task" -> name fc <> "update_task_notes" -> name fc <> "set_alarm" ->
  dispatch h fc st = st.
Proof.
  intros H1 H2 H3. unfold dispatch.
  now rewrite !eqb_decide, !bool_decide_eq_false_2.
Qed.

(** C5. An invocation whose name is none of create_task, update_task_notes,
    set_alarm changes nothing: the loop state (reply text, queued task
    updates) is what it was, so a response is handled as if the invocation
    were not in it, no acknowledgment is added for it, and the task and note
    collections are left as they were. *)
Theorem unknown_tool_ignored (h : Host) (fc : FunctionCall) :
  name fc <> "create_task" -> name fc <> "update_task_notes" -> name fc <> "set_alarm" ->
  (forall st : Loop, dispatch h fc st = st)
  /\ acknowledgment fc = ""
  /\ (forall prev : list JsObj, dispatched h fc prev = Some prev)
  /\ (forall (v : JsVal) (ps1 ps2 : list Part) (st : Loop),
         process_parts h (ps1 ++ {| text := v; functionCall := Some fc |} :: ps2) st
         = process_parts h (ps1 ++ text_part v :: ps2) st)
  /\ (forall (net : Network) (response : Response AIResponse) (input key : string) (s : App),
         provider s = Gemini key ->
         gemini_fetch net = Ok response ->
         ok response = true ->
         parts (json response) = [call_part fc] ->
         blank input = false ->
         exists s', handleAiCommand h net input s = Some s'
                    /\ tasks s' = tasks s
                    /\ generalNotes s' = generalNotes s
                    /\ chatHistory s'
                       = chatHistory s
                           ++ [ {| ChatMessage.role := user; ChatMessage.text := input |};
                                {| ChatMessage.role := model;
                                   ChatMessage.text := "I've updated your schedule accordingly." |} ]).
Proof.
  intros H1 H2 H3.
  assert (Hd : forall st, dispatch h fc st = st) by (intros; now apply dispatch_unknown).
  split; [exact Hd|].
  split.
  { unfold acknowledgment. now rewrite !decide_False. }
  split.
  { intros prev. unfold dispatched. now rewrite Hd. }
  split.
  { intros v ps1 ps2 st.
    assert (Hp : forall st', process_part h st' {| text := v; functionCall := Some fc |}
                             = process_part h st' (text_part v)).
    { intros st'. unfold process_part, text_part. cbn [text functionCall]. apply Hd. }
    unfold process_parts. rewrite !fold_left_app. cbn [fold_left]. now rewrite Hp. }
  intros net response input key s Hp Hf Hok Hps Hb.
  rewrite (handle_ok h net input s (json response)) by (rewrite ?Hp; auto using gemini_ok).
  rewrite Hps. unfold process_parts, call_part, process_part.
  cbn [fold_left text functionCall truthy]. rewrite Hd.
  eexists. split; [reflexivity|]. cbn. rewrite <- app_assoc. auto.
Qed.

Lemma unknown_tool_ignored_witness :
  dispatched sample_host {| name := "delete_task"; args := ∅ |} [report; draft]
  = Some [report; draft].
Proof.
  refine (proj1 (proj2 (proj2 (unknown_tool_ignored sample_host
            {| name := "delete_task"; args := ∅ |} _ _ _))) [report; draft]);
    cbn [name]; discriminate.
Defined.

(** ** Fuzzy lookup *)

Lemma title_matches_typed (a t : JsObj) (wanted title : string) :
  get a "taskTitle" = JString wanted ->
  get t "title" = JString title ->
  title_matches a t = Some (fuzzy_match a t).
Proof. intros Ha Ht. unfold title_matches, fuzzy_match. now rewrite Ha, Ht. Qed.

Lemma mapM_fuzzy (a : JsObj) (f : JsObj -> JsObj) (wanted : string) (prev : list JsObj) :
  get a "taskTitle" = JString wanted ->
  Forall (fun t => exists title, get t "title" = JString title) prev ->
  mapM (fun t => hit ← title_matches a t; Some (if hit : bool then f t else t)) prev
  = Some (List.map (fun t => if fuzzy_match a t then f t else t) prev).
Proof.
  intros Ha Hts. apply mapM_Some.
  induction Hts as [|t ts [title Ht] _ IH]; simpl; constructor; [|exact IH].
  now rewrite (title_matches_typed a t wanted title).
Qed.

Lemma dispatched_fuzzy (h : Host) (fc : FunctionCall) (wanted : string) (prev : list JsObj) :
  name fc = "update_task_notes" \/ name fc = "set_alarm" ->
  get (args fc) "taskTitle" = JString wanted ->
  Forall (fun t => exists title, get t "title" = JString title) prev ->
  dispatched h fc prev
  = Some (List.map (fun t => if fuzzy_match (args fc) t then mutation fc t else t) prev).
Proof.
  intros Hn Ha Hts. unfold dispatched, dispatch, mutation. rewrite !eqb_decide.
  destruct Hn as [Hn|Hn]; rewrite Hn; cbn [bool_decide decide_rel]; simpl.
  - now rewrite (mapM_fuzzy _ _ wanted).
  - now rewrite (mapM_fuzzy _ _ wanted).
Qed.

(** C1, as the code has it.  A dispatched update_task_notes or set_alarm
    whose taskTitle is an ASCII string, on tasks whose titles are ASCII
    strings, changes every task whose title contains the taskTitle (letter
    case apart), each at its place in stored order, and leaves every other
    task as it was. *)
Theorem every_match_mutated (h : Host) (fc : FunctionCall) (wanted : string) (prev : list JsObj) :
  name fc = "update_task_notes" \/ name fc = "set_alarm" ->
  get (args fc) "taskTitle" = JString wanted ->
  ascii_only wanted = true ->
  Forall ascii_titled prev ->
  exists next : list JsObj,
    dispatched h fc prev = Some next
    /\ length next = length prev
    /\ forall (i : nat) (t : JsObj),
        prev !! i = Some t ->
        (fuzzy_match (args fc) t = true -> next !! i = Some (mutation fc t))
        /\ (fuzzy_match (args fc) t = false -> next !! i = Some t).
Proof.
  intros Hn Ha _ Hascii.
  assert (Hts : Forall (fun t => exists title, get t "title" = JString title) prev).
  { eapply Forall_impl; [exact Hascii|]. intros t (title & Ht & _). eauto. }
  eexists. split; [apply (dispatched_fuzzy h fc wanted); assumption|].
  split; [apply length_map|].
  intros i t Hi.
  change (List.map ?f prev) with (f <$> prev). rewrite list_lookup_fmap, Hi. simpl.
  split; intros ->; reflexivity.
Qed.

Lemma every_match_mutated_witness :
  exists next : list JsObj,
    dispatched sample_host write_report_notes [report; draft] = Some next
    /\ length next = length [report; draft]
    /\ forall (i : nat) (t : JsObj),
        [report; draft] !! i = Some t ->
        (fuzzy_match (args write_report_notes) t = true
         -> next !! i = Some (mutation write_report_notes t))
        /\ (fuzzy_match (args write_report_notes) t = false -> next !! i = Some t).
Proof.
  apply (every_match_mutated sample_host write_report_notes "write report" [report; draft]).
  - left. reflexivity.
  - vm_compute. reflexivity.
  - reflexivity.
  - repeat constructor; eexists; split; vm_compute; reflexivity.
Defined.

(** C1 as stated fails.  With the tasks "Write Report" and "Write Report
    Draft" in that order, update_task_notes for "write report" matches both,
    and the notes of the second are overwritten too: the list is not the one
    in which only the first match is changed. *)
Lemma first_match_only_counterexample :
  let a := args write_report_notes in
  fuzzy_match a report = true
  /\ fuzzy_match a draft = true
  /\ dispatched sample_host write_report_notes [report; draft]
     = Some [update_notes a report; update_notes a draft]
  /\ get draft "notes" = JString ""
  /\ get (update_notes a draft) "notes" = JString "outline first"
  /\ dispatched sample_host write_report_notes [report; draft]
     <> Some (update_first (fuzzy_match a) (update_notes a) [report; draft]).
Proof.
  intros a. repeat split; try (vm_compute; reflexivity).
  intros H.
  assert (E : List.map (fun o => get o "notes") <$>
              dispatched sample_host write_report_notes [report; draft]
              = List.map (fun o => get o "notes") <$>
                Some (update_first (fuzzy_match a) (update_notes a) [report; draft]))
    by (now rewrite H).
  vm_compute in E. discriminate E.
Qed.

(** ** Creating a task *)

Lemma dispatched_create (h : Host) (fc : FunctionCall) (prev : list JsObj) :
  name fc = "create_task" ->
  dispatched h fc prev
  = Some (prev ++ [addTask h 0 (get (args fc) "title") (get (args fc) "category")
                     (get (args fc) "duration") (get (args fc) "notes")
                     (get (args fc) "alarmTime")]).
Proof. intros Hn. unfold dispatched, dispatch. rewrite Hn. reflexivity. Qed.

(** C4, as the code has it.  A dispatched create_task appends one task; its
    reminder time is the alarmTime argument, and its alarm-enabled flag is
    the truthiness of that argument: false when alarmTime is omitted, and for
    an alarmTime string true exactly when the string is not empty. *)
Theorem alarm_enabled_iff_time_given (h : Host) (fc : FunctionCall) (prev : list JsObj) :
  name fc = "create_task" ->
  exists t : JsObj,
    dispatched h fc prev = Some (prev ++ [t])
    /\ get t "reminderTime" = get (args fc) "alarmTime"
    /\ get t "alarmEnabled" = JBool (truthy (get (args fc) "alarmTime"))
    /\ (args fc !! "alarmTime" = None -> get t "alarmEnabled" = JBool false)
    /\ (forall time : string,
           args fc !! "alarmTime" = Some (JString time) ->
           (get t "alarmEnabled" = JBool true <-> time <> "")).
Proof.
  intros Hn. eexists. split; [apply dispatched_create; exact Hn|].
  match goal with |- context [addTask ?h ?n ?a ?b ?c ?d ?e] =>
    destruct (addTask_fields h n a b c d e) as (_ & _ & _ & _ & Hr & He & _) end.
  split; [exact Hr|]. split; [exact He|]. rewrite He. split.
  - intros Habs. unfold get. now rewrite Habs.
  - intros time Ht. unfold get. rewrite Ht. cbn [truthy].
    destruct (String.eqb_spec time "") as [E|E]; cbn [negb]; split; congruence.
Qed.

Lemma alarm_enabled_iff_time_given_witness :
  exists t : JsObj,
    dispatched sample_host standup_at_nine [report] = Some ([report] ++ [t])
    /\ get t "reminderTime" = get (args standup_at_nine) "alarmTime"
    /\ get t "alarmEnabled" = JBool (truthy (get (args standup_at_nine) "alarmTime"))
    /\ (args standup_at_nine !! "alarmTime" = None -> get t "alarmEnabled" = JBool false)
    /\ (forall time : string,
           args standup_at_nine !! "alarmTime" = Some (JString time) ->
           (get t "alarmEnabled" = JBool true <-> time <> "")).
Proof. apply (alarm_enabled_iff_time_given sample_host standup_at_nine [report]). reflexivity. Defined.

(** C4 as stated fails.  create_task with the alarmTime argument supplied as
    the empty string gives a task whose alarm-enabled flag is false. *)
Lemma alarm_flag_counterexample :
  args nap_without_time !! "alarmTime" = Some (JString "")
  /\ exists t : JsObj,
      dispatched sample_host nap_without_time [] = Some [t]
      /\ get t "reminderTime" = JString ""
      /\ get t "alarmEnabled" = JBool false.
Proof.
  split; [vm_compute; reflexivity|].
  exists (addTask sample_host 0 (JString "Nap") (JString "Private") (JNumber 20)
            JUndefined (JString "")).
  repeat split; vm_compute; reflexivity.
Qed.

(** ** Revising a duration *)

Lemma update_notes_fields (a t : JsObj) :
  get (update_notes a t) "notes" = get a "notes"
  /\ get (update_notes a t) "estimatedDuration"
     = js_or (get a "duration") (get t "estimatedDuration")
  /\ get (update_notes a t) "title" = get t "title".
Proof.
  unfold update_notes. rewrite !get_with_prop.
  repeat split; repeat case_decide; congruence.
Qed.

(** A duration other than 0 is written; an omitted one, and 0, are not. *)
Lemma update_notes_duration (a t : JsObj) :
  (forall n : Z, n <> 0 -> get a "duration" = JNumber n ->
                 get (update_notes a t) "estimatedDuration" = JNumber n)
  /\ (a !! "duration" = None ->
      get (update_notes a t) "estimatedDuration" = get t "estimatedDuration")
  /\ (get a "duration" = JNumber 0 ->
      get (update_notes a t) "estimatedDuration" = get t "estimatedDuration").
Proof.
  destruct (update_notes_fields a t) as (_ & -> & _). unfold js_or.
  split; [|split].
  - intros n Hn ->. cbn [truthy]. destruct (Z.eqb_spec n 0); [contradiction | reflexivity].
  - intros Habs. unfold get at 1 2. now rewrite Habs.
  - intros ->. reflexivity.
Qed.

(** C8 at the failing input.  The task "Write Report" has an estimated
    duration of 30; update_task_notes with duration 0 matches it, overwrites
    its notes and leaves the duration at 30. *)
Theorem zero_duration_is_dropped :
  get (args report_in_zero_minutes) "duration" = JNumber 0
  /\ get report "estimatedDuration" = JNumber 30
  /\ fuzzy_match (args report_in_zero_minutes) report = true
  /\ exists t : JsObj,
      dispatched sample_host report_in_zero_minutes [report] = Some [t]
      /\ get t "notes" = JString "skip it"
      /\ get t "estimatedDuration" = JNumber 30.
Proof.
  repeat split; try (vm_compute; reflexivity).
  exists (update_notes (args report_in_zero_minutes) report).
  repeat split; vm_compute; reflexivity.
Qed.

(** ** The vendor-B adapter *)

Lemma map_result_Ok {A B} (f : A -> Result B) (xs : list A) (ys : list B) :
  map_result f xs = Ok ys -> Forall2 (fun x y => f x = Ok y) xs ys.
Proof.
  revert ys. induction xs as [|x xs IH]; intros ys; simpl.
  - intros [= <-]. constructor.
  - destruct (f x) as [y|e] eqn:Hx; simpl; [|discriminate].
    destruct (map_result f xs) as [ys'|e]; simpl; [|discriminate].
    intros [= <-]. constructor; auto.
Qed.

(** A loop over a list that throws somewhere throws what its first failing
    element throws: every element before it went through. *)
Lemma map_result_first_Throw {A B} (f : A -> Result B) (xs : list A) :
  Exists (fun x => exists e, f x = Throw e) xs ->
  exists (e : Exn) (i : nat) (x : A),
    xs !! i = Some x
    /\ f x = Throw e
    /\ (forall (j : nat) (y : A), (j < i)%nat -> xs !! j = Some y -> exists b : B, f y = Ok b)
    /\ map_result f xs = Throw e.
Proof.
  induction xs as [|x xs IH]; intros Hbad; [inversion Hbad|]. simpl.
  destruct (f x) as [b|e] eqn:Hx; simpl.
  - apply Exists_cons in Hbad as [[e He]|Hbad]; [congruence|].
    destruct (IH Hbad) as (e & i & x' & Hi & Hx' & Hfirst & ->).
    exists e, (S i), x'. repeat split; auto.
    intros [|j] y Hj Hy; simpl in Hy.
    + injection Hy as <-. eauto.
    + apply (Hfirst j); [lia | exact Hy].
  - exists e, 0%nat, x. repeat split; auto. intros j y Hj. lia.
Qed.

Lemma convert_call_Ok (h : Host) (call : ToolCall) (p : Part) :
  OpenAIProvider.convert_call h call = Ok p ->
  text p = JUndefined
  /\ exists a : JsObj,
      JSON_parse h (function_arguments call) = Ok a
      /\ functionCall p = Some {| name := function_name call; args := a |}.
Proof.
  unfold OpenAIProvider.convert_call.
  destruct (JSON_parse h (function_arguments call)) as [a|e]; simpl; [|discriminate].
  intros [= <-]. eauto.
Qed.

Lemma openai_generateContent_Ok (h : Host) (fetched : Result (Response Message)) (r : AIResponse) :
  OpenAIProvider.generateContent h fetched = Ok r ->
  exists response : Response Message,
    fetched = Ok response /\ ok response = true
    /\ OpenAIProvider.convert h (json response) = Ok r.
Proof.
  unfold OpenAIProvider.generateContent. destruct fetched as [response|e]; simpl; [|discriminate].
  destruct (ok response) eqn:Hok; simpl; [|discriminate]. eauto.
Qed.

(** C10. A response of the vendor-B adapter holds either function-call parts
    only or exactly one text part.  When the reply has tool-call entries
    there is one function-call part per entry, none of them carries text,
    and the response is the same whatever the message content is. *)
Theorem openai_parts_never_mixed (h : Host) (fetched : Result (Response Message)) (r : AIResponse) :
  OpenAIProvider.generateContent h fetched = Ok r ->
  (Forall (fun p => text p = JUndefined /\ is_Some (functionCall p)) (parts r)
   \/ exists v : JsVal, parts r = [text_part v])
  /\ forall (response : Response Message) (calls : list ToolCall),
      fetched = Ok response ->
      tool_calls (json response) = Some calls ->
      Forall (fun p => text p = JUndefined /\ is_Some (functionCall p)) (parts r)
      /\ length (parts r) = length calls
      /\ forall v : JsVal,
          OpenAIProvider.generateContent h (Ok (with_content v response)) = Ok r.
Proof.
  intros Hr. destruct (openai_generateContent_Ok h fetched r Hr) as (response & -> & Hok & Hc).
  assert (Hcalls : forall calls, tool_calls (json response) = Some calls ->
            Forall (fun p => text p = JUndefined /\ is_Some (functionCall p)) (parts r)
            /\ length (parts r) = length calls).
  { intros calls Ht. unfold OpenAIProvider.convert in Hc. rewrite Ht in Hc.
    destruct (map_result _ calls) as [ps|e] eqn:Hps; simpl in Hc; [|discriminate].
    injection Hc as <-. cbn [parts]. apply map_result_Ok in Hps.
    split; [|symmetry; eapply Forall2_length; eassumption].
    clear Ht Hr. induction Hps as [|call p calls ps Hp _ IH]; [constructor|].
    constructor; [|exact IH].
    destruct (convert_call_Ok h call p Hp) as (Ht' & a & _ & Hf). rewrite Hf. eauto. }
  split.
  - destruct (tool_calls (json response)) as [calls|] eqn:Ht.
    + left. now apply (Hcalls calls).
    + right. unfold OpenAIProvider.convert in Hc. rewrite Ht in Hc.
      injection Hc as <-. eexists. reflexivity.
  - intros response' calls [= <-] Ht. destruct (Hcalls calls Ht) as [Hall Hlen].
    split; [exact Hall|]. split; [exact Hlen|].
    intros v. unfold OpenAIProvider.generateContent, with_content. simpl. rewrite Hok. simpl.
    unfold OpenAIProvider.convert in *. cbn [tool_calls]. rewrite Ht in *. exact Hc.
Qed.

Lemma openai_parts_never_mixed_witness :
  let fetched := Ok (completion (JString "Setting it now.") (Some [ {| function_name := "set_alarm"; function_arguments := alarm_arguments |} ])) in
  let r := {| parts := [call_part report_alarm] |} in
  (Forall (fun p => text p = JUndefined /\ is_Some (functionCall p)) (parts r)
   \/ exists v : JsVal, parts r = [text_part v])
  /\ forall (response : Response Message) (calls : list ToolCall),
      fetched = Ok response ->
      tool_calls (json response) = Some calls ->
      Forall (fun p => text p = JUndefined /\ is_Some (functionCall p)) (parts r)
      /\ length (parts r) = length calls
      /\ forall v : JsVal,
          OpenAIProvider.generateContent sample_host (Ok (with_content v response)) = Ok r.
Proof.
  intros fetched r.
  apply (openai_parts_never_mixed sample_host fetched r).
  vm_compute. reflexivity.
Defined.

Lemma handle_throw (h : Host) (net : Network) (input : string) (s : App) (e : Exn) :
  blank input = false ->
  getAIResponse h (provider s) net = Throw e ->
  handleAiCommand h net input s = Some (push model (errorMessage e) (push user input s)).
Proof. intros Hb Hr. unfold handleAiCommand. now rewrite Hb, Hr. Qed.

(** C2, as the code has it.  When the vendor-B reply has tool-call entries
    and the argument text of one of them does not parse, the adapter call
    throws the parse error of the first such entry (every entry before it
    parses) and gives no response at all.  The handler catches it: it does
    not crash, dispatches nothing, leaves tasks and notes as they were, and
    answers with the error text. *)
Theorem malformed_arguments_abort
    (h : Host) (net : Network) (response : Response Message) (calls : list ToolCall)
    (input key : string) (s : App) :
  provider s = OpenAI key ->
  openai_fetch net = Ok response ->
  ok response = true ->
  tool_calls (json response) = Some calls ->
  Exists (fun call => exists e, JSON_parse h (function_arguments call) = Throw e) calls ->
  blank input = false ->
  exists (e : Exn) (i : nat) (call : ToolCall),
    calls !! i = Some call
    /\ In call calls
    /\ JSON_parse h (function_arguments call) = Throw e
    /\ (forall (j : nat) (earlier : ToolCall),
           (j < i)%nat -> calls !! j = Some earlier ->
           exists a : JsObj, JSON_parse h (function_arguments earlier) = Ok a)
    /\ getAIResponse h (provider s) net = Throw e
    /\ exists s' : App,
        handleAiCommand h net input s = Some s'
        /\ tasks s' = tasks s
        /\ generalNotes s' = generalNotes s
        /\ chatHistory s'
           = chatHistory s
               ++ [ {| ChatMessage.role := user; ChatMessage.text := input |};
                    {| ChatMessage.role := model; ChatMessage.text := errorMessage e |} ].
Proof.
  intros Hp Hf Hok Ht Hbad Hb.
  destruct (map_result_first_Throw (OpenAIProvider.convert_call h) calls)
    as (e & i & call & Hi & Hc & Hfirst & Hm).
  { eapply Exists_impl; [exact Hbad|]. intros call [e He]. exists e.
    unfold OpenAIProvider.convert_call. now rewrite He. }
  assert (Hr : getAIResponse h (provider s) net = Throw e).
  { rewrite Hp. unfold getAIResponse, AIService.generateContent, OpenAIProvider.generateContent.
    rewrite Hf. simpl. rewrite Hok. simpl. unfold OpenAIProvider.convert.
    rewrite Ht, Hm. reflexivity. }
  exists e, i, call. split; [exact Hi|]. split.
  { apply list_elem_of_In. eapply list_elem_of_lookup_2. exact Hi. }
  split.
  { unfold OpenAIProvider.convert_call in Hc.
    destruct (JSON_parse h (function_arguments call)); simpl in Hc; [discriminate | congruence]. }
  split.
  { intros j earlier Hj Hearlier. destruct (Hfirst j earlier Hj Hearlier) as [p Hp'].
    destruct (convert_call_Ok h earlier p Hp') as (_ & a & Ha & _). eauto. }
  split; [exact Hr|].
  exists (push model (errorMessage e) (push user input s)).
  split; [apply handle_throw; assumption|].
  cbn. rewrite <- app_assoc. auto.
Qed.

Lemma malformed_arguments_abort_witness :
  let s := sample_app [report] (OpenAI "sk-test") in
  let net := openai_says (completion JNull (Some broken_twice)) in
  exists (e : Exn) (i : nat) (call : ToolCall),
    broken_twice !! i = Some call
    /\ In call broken_twice
    /\ JSON_parse sample_host (function_arguments call) = Throw e
    /\ (forall (j : nat) (earlier : ToolCall),
           (j < i)%nat -> broken_twice !! j = Some earlier ->
           exists a : JsObj, JSON_parse sample_host (function_arguments earlier) = Ok a)
    /\ getAIResponse sample_host (provider s) net = Throw e
    /\ exists s' : App,
        handleAiCommand sample_host net "remind me" s = Some s'
        /\ tasks s' = tasks s
        /\ generalNotes s' = generalNotes s
        /\ chatHistory s'
           = chatHistory s
               ++ [ {| ChatMessage.role := user; ChatMessage.text := "remind me" |};
                    {| ChatMessage.role := model; ChatMessage.text := errorMessage e |} ].
Proof.
  intros s net.
  apply (malformed_arguments_abort sample_host net (completion JNull (Some broken_twice))
           broken_twice "remind me" "sk-test" s); try reflexivity.
  apply Exists_cons_tl, Exists_cons_hd. exists syntax_error. vm_compute. reflexivity.
Defined.

(** C2 as stated fails.  In a reply whose first entry has the argument text
    "{" and whose second is a well-formed set_alarm for "report", treating
    the first as absent would dispatch the second and set the alarm of the
    task "Write Report".  The adapter throws instead: the task list is left
    as it was and the reply is the error text. *)
Lemma malformed_arguments_counterexample :
  let s := sample_app [report] (OpenAI "sk-test") in
  let net := openai_says (completion JNull (Some broken_then_alarm)) in
  skip_malformed sample_host broken_then_alarm = [call_part report_alarm]
  /\ run_updates (queued (process_parts sample_host
                            (skip_malformed sample_host broken_then_alarm) loop_start))
       [report]
     = Some [set_alarm (args report_alarm) report]
  /\ get (set_alarm (args report_alarm) report) "alarmEnabled" = JBool true
  /\ get report "alarmEnabled" = JBool false
  /\ getAIResponse sample_host (provider s) net = Throw syntax_error
  /\ getAIResponse sample_host (provider s) net
     <> Ok {| parts := skip_malformed sample_host broken_then_alarm |}
  /\ handleAiCommand sample_host net "remind me" s
     = Some (push model "Error: Unexpected token in JSON" (push user "remind me" s))
  /\ tasks (push model "Error: Unexpected token in JSON" (push user "remind me" s)) = [report].
Proof.
  intros s net.
  assert (Hthrow : getAIResponse sample_host (provider s) net = Throw syntax_error)
    by (vm_compute; reflexivity).
  repeat split; try (vm_compute; reflexivity).
  rewrite Hthrow. discriminate.
Qed.

(** ** Provider selection and the catch block *)

Lemma createProvider_no_key (ls : Storage) :
  AIService.getApiKey ls (configured_provider ls) = None ->
  AIService.createProvider ls = Mock (configured_provider ls).
Proof.
  intros Hk. unfold AIService.createProvider. fold (configured_provider ls). now rewrite Hk.
Qed.

Lemma errorMessage_key_not_found (aiProvider : string) :
  errorMessage (AIService.key_not_found aiProvider) = configure_hint.
Proof. vm_compute. reflexivity. Qed.

Lemma errorMessage_raw (e : Exn) :
  message e <> "" ->
  includes (message e) "API key" = false ->
  errorMessage e = "Error: " +:+ message e /\ errorMessage e <> configure_hint.
Proof.
  intros Hne Hinc.
  assert (E : errorMessage e = "Error: " +:+ message e).
  { unfold errorMessage. rewrite Hinc.
    apply String.eqb_neq in Hne. rewrite Hne. reflexivity. }
  split; [exact E|]. rewrite E.
  change ("Error: " +:+ message e) with (String "E" ("rror: " +:+ message e)).
  discriminate.
Qed.

(** C6, as the code has it.  When no key is found for the configured
    provider, building the provider gives the stand-in without throwing;
    generateContent and generateJSON on the stand-in throw the key-not-found
    error; the handler shows it as the configure-your-API-key text.  Every
    other error whose message is not empty and does not contain "API key" is
    shown as "Error: " followed by its message, which is a different text. *)
Theorem missing_key_is_reported (h : Host) (ls : Storage) :
  AIService.getApiKey ls (configured_provider ls) = None ->
  AIService.createProvider ls = Mock (configured_provider ls)
  /\ (forall net : Network,
         AIService.generateContent h (AIService.createProvider ls) net
         = Throw (AIService.key_not_found (configured_provider ls))
         /\ AIService.generateJSON h (AIService.createProvider ls) net
            = Throw (AIService.key_not_found (configured_provider ls)))
  /\ errorMessage (AIService.key_not_found (configured_provider ls)) = configure_hint
  /\ (forall (net : Network) (input : string) (s : App),
         provider s = AIService.createProvider ls ->
         blank input = false ->
         handleAiCommand h net input s
         = Some (push model configure_hint (push user input s)))
  /\ (forall e : Exn,
         message e <> "" ->
         includes (message e) "API key" = false ->
         errorMessage e = "Error: " +:+ message e /\ errorMessage e <> configure_hint).
Proof.
  intros Hk. pose proof (createProvider_no_key ls Hk) as Hc.
  split; [exact Hc|]. split; [intros net; rewrite Hc; split; reflexivity|].
  split; [apply errorMessage_key_not_found|].
  split; [|apply errorMessage_raw].
  intros net input s Hp Hb.
  rewrite (handle_throw h net input s (AIService.key_not_found (configured_provider ls))).
  - now rewrite errorMessage_key_not_found.
  - exact Hb.
  - rewrite Hp, Hc. reflexivity.
Qed.

Lemma missing_key_is_reported_witness :
  AIService.createProvider ∅ = Mock "gemini"
  /\ handleAiCommand sample_host (gemini_says []) "hello" (sample_app [] (Mock "gemini"))
     = Some (push model configure_hint (push user "hello" (sample_app [] (Mock "gemini")))).
Proof.
  assert (Hk : AIService.getApiKey ∅ (configured_provider ∅) = None)
    by (vm_compute; reflexivity).
  destruct (missing_key_is_reported sample_host ∅ Hk) as (Hc & _ & _ & Hh & _).
  split; [exact Hc|].
  apply Hh; [rewrite Hc|]; reflexivity.
Defined.

(** C6 as stated fails.  With a key configured, a vendor answer 401 "Invalid
    API key" makes the adapter throw "OpenAI API error: 401 Invalid API key";
    this is not the missing-key error, yet the handler shows the
    configure-your-API-key text and not the message. *)
Lemma other_failure_counterexample :
  let s := sample_app [] (AIService.createProvider
                            (<["openai_api_key" := "sk-old"]> (<["aiProvider" := "openai"]> ∅))) in
  let e := Error "OpenAI API error: 401 Invalid API key" in
  provider s = OpenAI "sk-old"
  /\ getAIResponse sample_host (provider s) (openai_says key_refused) = Throw e
  /\ (forall aiProvider : string, e <> AIService.key_not_found aiProvider)
  /\ errorMessage e = configure_hint
  /\ errorMessage e <> "Error: " +:+ message e
  /\ handleAiCommand sample_host (openai_says key_refused) "hello" s
     = Some (push model configure_hint (push user "hello" s)).
Proof.
  intros s e. repeat split; try (vm_compute; reflexivity).
  - intros aiProvider H. vm_compute in H. discriminate H.
  - vm_compute. discriminate.
Qed.

(** ** Persistence loading *)

Lemma load_missing {A} (parse : string -> Result A) (dflt : A) :
  load parse None dflt = Ok dflt /\ load parse (Some "") dflt = Ok dflt.
Proof. split; reflexivity. Qed.

Lemma load_present {A} (parse : string -> Result A) (saved : string) (dflt : A) :
  saved <> "" -> load parse (Some saved) dflt = parse saved.
Proof. intros Hne. unfold load. apply String.eqb_neq in Hne. now rewrite Hne. Qed.

(** C7, as the code has it.  For every key a value that is missing or
    empty gives the typed default: the empty task list, the default profile,
    the empty note list.  A value that is present, not empty and that
    JSON.parse rejects makes loading throw the parse error, with no
    fallback: the first render throws and gives no state. *)
Theorem unreadable_storage_halts (h : Host) (ls : Storage) :
  (forall (A : Type) (parse : string -> Result A) (dflt : A),
      load parse None dflt = Ok dflt /\ load parse (Some "") dflt = Ok dflt)
  /\ (forall app : App,
         startup h ls = Ok app ->
         (nothing_saved ls "zentime-tasks-v2" -> tasks app = [])
         /\ (nothing_saved ls "zentime-profile" -> profile app = default_profile h)
         /\ (nothing_saved ls "zentime-general-notes" -> generalNotes app = []))
  /\ (nothing_saved ls "zentime-tasks-v2" ->
      nothing_saved ls "zentime-profile" ->
      nothing_saved ls "zentime-general-notes" ->
      startup h ls = Ok {| tasks := [];
                           profile := default_profile h;
                           generalNotes := [];
                           chatHistory := [];
                           activeAlarm := None;
                           provider := AIService.createProvider ls |})
  /\ (forall (A : Type) (parse : string -> Result A) (saved : string) (dflt : A),
         saved <> "" -> load parse (Some saved) dflt = parse saved)
  /\ (forall (A : Type) (parse : string -> Result A) (saved : string) (dflt : A) (e : Exn),
         saved <> "" -> parse saved = Throw e -> load parse (Some saved) dflt = Throw e)
  /\ (forall (saved : string) (e : Exn),
         saved <> "" ->
         (ls !! "zentime-tasks-v2" = Some saved /\ JSON_parse_array h saved = Throw e)
         \/ (ls !! "zentime-profile" = Some saved /\ JSON_parse h saved = Throw e)
         \/ (ls !! "zentime-general-notes" = Some saved /\ JSON_parse_array h saved = Throw e) ->
         exists e' : Exn, startup h ls = Throw e').
Proof.
  assert (Hnone : forall (A : Type) (parse : string -> Result A) (dflt : A) (k : string),
             nothing_saved ls k -> load parse (ls !! k) dflt = Ok dflt).
  { intros A parse dflt k [Hk|Hk]; rewrite Hk; reflexivity. }
  split; [split; reflexivity|]. split.
  { intros app. unfold startup.
    destruct (load (JSON_parse_array h) (ls !! "zentime-tasks-v2") []) as [ts|e1] eqn:H1;
      simpl; [|discriminate].
    destruct (load (JSON_parse h) (ls !! "zentime-profile") (default_profile h)) as [pr|e2] eqn:H2;
      simpl; [|discriminate].
    destruct (load (JSON_parse_array h) (ls !! "zentime-general-notes") []) as [ns|e3] eqn:H3;
      simpl; [|discriminate].
    intros [= <-]. cbn [tasks profile generalNotes].
    split; [|split]; intros Hm.
    - rewrite (Hnone _ _ _ _ Hm) in H1. congruence.
    - rewrite (Hnone _ _ _ _ Hm) in H2. congruence.
    - rewrite (Hnone _ _ _ _ Hm) in H3. congruence. }
  split.
  { intros H1 H2 H3. unfold startup. rewrite !Hnone by assumption. reflexivity. }
  split; [intros A parse saved dflt Hne; now apply load_present|].
  split.
  { intros A parse saved dflt e Hne Hp. now rewrite load_present. }
  intros saved e Hne Hbad. unfold startup.
  destruct Hbad as [[Hk Hp]|[[Hk Hp]|[Hk Hp]]]; rewrite Hk, load_present, Hp by assumption.
  - simpl. eauto.
  - destruct (load (JSON_parse_array h) (ls !! "zentime-tasks-v2") []); simpl; eauto.
  - destruct (load (JSON_parse_array h) (ls !! "zentime-tasks-v2") []); simpl; eauto.
    destruct (load (JSON_parse h) (ls !! "zentime-profile") (default_profile h)); simpl; eauto.
Qed.

Lemma unreadable_storage_halts_witness :
  exists e' : Exn, startup sample_host {[ "zentime-tasks-v2" := "[{]" ]} = Throw e'.
Proof.
  apply (proj2 (proj2 (proj2 (proj2 (proj2
           (unreadable_storage_halts sample_host {[ "zentime-tasks-v2" := "[{]" ]})))))
           "[{]" syntax_error).
  - discriminate.
  - left. split; vm_compute; reflexivity.
Defined.

(** C7 as stated fails.  With the profile stored as the text "{oops", which
    is not JSON, and the two other keys missing, startup throws the parse
    error; it does not give a state with the default profile. *)
Lemma corrupt_profile_counterexample :
  let ls : Storage := {[ "zentime-profile" := "{oops" ]} in
  JSON_parse sample_host "{oops" = Throw syntax_error
  /\ startup sample_host ls = Throw syntax_error
  /\ forall app : App, startup sample_host ls <> Ok app.
Proof.
  intros ls.
  assert (H : startup sample_host ls = Throw syntax_error) by (vm_compute; reflexivity).
  split; [vm_compute; reflexivity|]. split; [exact H|].
  intros app. rewrite H. discriminate.
Qed.

(** ** The alarm tick *)

Lemma find_first {A} (f : A -> bool) (l : list A) (x : A) :
  List.find f l = Some x ->
  f x = true
  /\ exists i : nat, l !! i = Some x /\ forall (j : nat) (y : A), (j < i)%nat -> l !! j = Some y -> f y = false.
Proof.
  induction l as [|a l IH]; simpl; [discriminate|].
  destruct (f a) eqn:Ha.
  - intros [= <-]. split; [exact Ha|]. exists 0%nat. split; [reflexivity|]. intros j y Hj. lia.
  - intros Hx. destruct (IH Hx) as (Hf & i & Hi & Hlt). split; [exact Hf|].
    exists (S i). split; [exact Hi|].
    intros [|j] y Hj Hy; simpl in Hy; [congruence|]. apply (Hlt j); [lia | exact Hy].
Qed.

(** What holds of the tick: a task the tick activates is enabled, not
    completed, has the current minute as its reminder time and is the first
    such task in stored order; and while the active alarm stays in place a
    second tick in the same minute starts no tone. *)
Lemma tick_activates (hh mm : nat) (s s' : App) :
  tick hh mm s = (s', true) ->
  exists (t : JsObj) (i : nat),
    activeAlarm s' = Some t
    /\ tasks s !! i = Some t
    /\ truthy (get t "alarmEnabled") = true
    /\ truthy (get t "completed") = false
    /\ get t "reminderTime" = JString (timeStr hh mm)
    /\ forall (j : nat) (t' : JsObj),
        (j < i)%nat -> tasks s !! j = Some t' -> is_ringing (timeStr hh mm) t' = false.
Proof.
  unfold tick. destruct (List.find _ (tasks s)) as [t|] eqn:Hfind; [|intros [= _ ?]; discriminate].
  destruct (negb _); intros [= <-]. 
  destruct (find_first _ _ _ Hfind) as (Hr & i & Hi & Hlt).
  exists t, i. cbn [activeAlarm setActiveAlarm].
  unfold is_ringing in Hr. apply andb_prop in Hr as [Hr Hc]. apply andb_prop in Hr as [He Heq].
  unfold strict_eq in Heq. apply bool_decide_eq_true_1 in Heq.
  apply negb_true_iff in Hc. auto 10.
Qed.

Lemma tick_twice (hh mm : nat) (s : App) :
  snd (tick hh mm (fst (tick hh mm s))) = false.
Proof.
  unfold tick at 2. destruct (List.find _ (tasks s)) as [t|] eqn:Hfind.
  - destruct (negb (strict_eq (active_id (activeAlarm s)) (get t "id"))) eqn:Hid; cbn [fst].
    + unfold tick. cbn [tasks setActiveAlarm activeAlarm active_id]. rewrite Hfind.
      unfold strict_eq. rewrite bool_decide_eq_true_2 by reflexivity. reflexivity.
    + unfold tick. rewrite Hfind, Hid. reflexivity.
  - cbn [fst]. unfold tick. rewrite Hfind. reflexivity.
Qed.

(** C9 at the failing input.  The task "Stand-up" has its alarm enabled for
    09:00 and is not completed.  A tick at 09:00 makes it the active alarm
    and starts the tone; the alarm is dismissed; the next tick, still at
    09:00, makes it the active alarm and starts the tone again. *)
Theorem alarm_rings_again_after_dismiss :
  let s0 := sample_app [standup] (Mock "gemini") in
  let s1 := fst (tick 9 0 s0) in
  let s2 := dismiss s1 in
  tick 9 0 s0 = (setActiveAlarm (Some standup) s0, true)
  /\ snd (tick 9 0 s1) = false
  /\ activeAlarm s2 = None
  /\ tick 9 0 s2 = (setActiveAlarm (Some standup) s0, true).
Proof. intros s0 s1 s2. repeat split; vm_compute; reflexivity. Qed.


(** Two tasks that share the reminder minute: the first in stored order
    becomes the active alarm, and the next tick changes nothing. *)
Example shared_minute_first_wins :
  let s0 := sample_app [standup; review] (Mock "gemini") in
  is_ringing "09:00" review = true
  /\ tick 9 0 s0 = (setActiveAlarm (Some standup) s0, true)
  /\ tick 9 0 (fst (tick 9 0 s0)) = (setActiveAlarm (Some standup) s0, false)
  /\ tick 9 1 (fst (tick 9 0 s0)) = (setActiveAlarm (Some standup) s0, false).
Proof. intros s0. repeat split; vm_compute; reflexivity. Qed.

(** * Further properties of the code *)

(** ** What the dispatcher does to the task list *)

Lemma mapM_branch_length (hit : JsObj -> option bool) (f : JsObj -> JsObj)
    (prev next : list JsObj) :
  mapM (fun t => b ← hit t; Some (if b : bool then f t else t)) prev = Some next ->
  length next = length prev.
Proof. intros H. symmetry. eapply length_mapM. exact H. Qed.

Lemma run_update_length (u : Update) (prev next : list JsObj) :
  run_update u prev = Some next ->
  length next = (length prev + (if is_append u then 1 else 0))%nat.
Proof.
  destruct u as [t|a|a]; simpl.
  - intros [= <-]. now rewrite length_app.
  - intros H. rewrite (mapM_branch_length _ _ _ _ H). lia.
  - intros H. rewrite (mapM_branch_length _ _ _ _ H). lia.
Qed.

Lemma run_updates_length (us : list Update) (prev next : list JsObj) :
  run_updates us prev = Some next ->
  length next = (length prev + length (List.filter is_append us))%nat.
Proof.
  revert prev. induction us as [|u us IH]; intros prev; simpl.
  - intros [= <-]. lia.
  - destruct (run_update u prev) as [mid|] eqn:Hu; simpl; [|discriminate].
    intros H. rewrite (IH _ H), (run_update_length _ _ _ Hu).
    destruct (is_append u); simpl; lia.
Qed.

Lemma dispatch_queued (h : Host) (fc : FunctionCall) (st : Loop) :
  exists us : list Update,
    queued (dispatch h fc st) = queued st ++ us
    /\ length (List.filter is_append us)
       = (if String.eqb (name fc) "create_task" then 1 else 0)%nat.
Proof.
  unfold dispatch.
  destruct (String.eqb (name fc) "create_task"); [eexists; split; [reflexivity|reflexivity]|].
  destruct (String.eqb (name fc) "update_task_notes"); [eexists; split; [reflexivity|reflexivity]|].
  destruct (String.eqb (name fc) "set_alarm"); [eexists; split; [reflexivity|reflexivity]|].
  exists []. now rewrite app_nil_r.
Qed.

Lemma process_part_queued (h : Host) (st : Loop) (p : Part) :
  exists us : list Update,
    queued (process_part h st p) = queued st ++ us
    /\ length (List.filter is_append us) = (if is_create p then 1 else 0)%nat.
Proof.
  unfold process_part, is_create.
  assert (Hs : forall line, queued (say line st) = queued st) by reflexivity.
  destruct (functionCall p) as [fc|].
  - destruct (truthy (text p)).
    + destruct (dispatch_queued h fc (say (to_string (text p)) st)) as (us & -> & Hn).
      exists us. now rewrite Hs.
    + apply dispatch_queued.
  - exists []. rewrite app_nil_r. destruct (truthy (text p)); auto.
Qed.

Lemma process_parts_queued (h : Host) (ps : list Part) (st : Loop) :
  exists us : list Update,
    queued (process_parts h ps st) = queued st ++ us
    /\ length (List.filter is_append us) = length (List.filter is_create ps).
Proof.
  revert st. induction ps as [|p ps IH]; intros st.
  - exists []. now rewrite app_nil_r.
  - change (process_parts h (p :: ps) st) with (process_parts h ps (process_part h st p)).
    destruct (IH (process_part h st p)) as (us2 & -> & H2).
    destruct (process_part_queued h st p) as (us1 & -> & H1).
    exists (us1 ++ us2). rewrite <- app_assoc. split; [reflexivity|].
    rewrite List.filter_app, length_app, H1, H2. simpl. destruct (is_create p); simpl; lia.
Qed.

(** X1. The handler never removes a task: after a command the task list is
    at least as long as before; when the provider answered it has grown by
    at most the number of create_task invocations in the response, and when
    the provider call failed it is the list there was. *)
Theorem handler_never_removes_tasks
    (h : Host) (net : Network) (input : string) (s s' : App) :
  handleAiCommand h net input s = Some s' ->
  (length (tasks s) <= length (tasks s'))%nat
  /\ (forall r : AIResponse,
         getAIResponse h (provider s) net = Ok r ->
         (length (tasks s')
          <= length (tasks s) + length (List.filter is_create (parts r)))%nat)
  /\ (forall e : Exn,
         getAIResponse h (provider s) net = Throw e -> tasks s' = tasks s).
Proof.
  unfold handleAiCommand. destruct (blank input) eqn:Hb.
  { intros [= <-]. split; [lia|]. split; [intros; lia | reflexivity]. }
  destruct (getAIResponse h (provider s) net) as [r|e] eqn:Hr.
  - destruct (run_updates _ _) as [ts|] eqn:Hu; simpl; [|discriminate].
    intros [= <-]. cbn [tasks push with_tasks] in *.
    apply run_updates_length in Hu.
    destruct (process_parts_queued h (parts r) loop_start) as (us & Hq & Hn).
    rewrite Hq in Hu. cbn [queued loop_start app] in Hu. rewrite Hn in Hu.
    split; [lia|]. split; [|discriminate]. intros r' [= <-]. lia.
  - intros [= <-]. cbn [tasks push]. split; [lia|]. split; [discriminate | reflexivity].
Qed.

Lemma handler_never_removes_tasks_witness :
  let s := sample_app [report] (Gemini "k") in
  exists s' : App,
    handleAiCommand sample_host (gemini_says (sure_created_done "X" ∅)) "plan" s = Some s'
    /\ (length (tasks s) <= length (tasks s'))%nat
    /\ (length (tasks s')
        <= length (tasks s) + length (List.filter is_create (sure_created_done "X" ∅)))%nat.
Proof.
  intros s.
  destruct (handleAiCommand sample_host (gemini_says (sure_created_done "X" ∅)) "plan" s)
    as [s'|] eqn:H; [|vm_compute in H; discriminate H].
  exists s'. split; [reflexivity|].
  destruct (handler_never_removes_tasks sample_host _ "plan" s s' H) as (Hlow & Hup & _).
  split; [exact Hlow|].
  exact (Hup {| parts := sure_created_done "X" ∅ |} eq_refl).
Defined.

Lemma mutated_keeps (f : JsObj -> JsObj) (hit : JsObj -> option bool) (P : JsObj -> JsObj -> Prop)
    (prev next : list JsObj) :
  (forall t, P t t) -> (forall t, P t (f t)) ->
  mapM (fun t => b ← hit t; Some (if b : bool then f t else t)) prev = Some next ->
  Forall2 P prev next.
Proof.
  intros Hrefl Hf H. apply mapM_Some_1 in H.
  eapply Forall2_impl; [exact H|]. intros t t'. simpl.
  destruct (hit t) as [[|]|]; simpl; intros [= <-]; auto.
Qed.

Lemma update_notes_keeps (a t : JsObj) (k : string) :
  k ∉ rewritten_keys -> get (update_notes a t) k = get t k.
Proof.
  intros Hk. unfold update_notes. rewrite !get_with_prop.
  repeat case_decide; subst; try reflexivity; exfalso; apply Hk; set_solver.
Qed.

Lemma set_alarm_keeps (a t : JsObj) (k : string) :
  k ∉ rewritten_keys -> get (set_alarm a t) k = get t k.
Proof.
  intros Hk. unfold set_alarm. rewrite !get_with_prop.
  repeat case_decide; subst; try reflexivity; exfalso; apply Hk; set_solver.
Qed.

Lemma run_update_keeps (u : Update) (prev next : list JsObj) :
  run_update u prev = Some next ->
  exists added : list JsObj,
    Forall2 (fun t t' => forall k, k ∉ rewritten_keys -> get t' k = get t k)
      prev (take (length prev) next)
    /\ next = take (length prev) next ++ added.
Proof.
  destruct u as [t|a|a]; simpl.
  - intros [= <-]. exists [t]. rewrite take_app_length. split; [|reflexivity].
    apply Forall_Forall2_diag, Forall_true. auto.
  - intros H. exists []. rewrite app_nil_r.
    rewrite <- (mapM_branch_length _ _ _ _ H), firstn_all. split; [|reflexivity].
    eapply mutated_keeps; [| |exact H]; simpl; auto using update_notes_keeps.
  - intros H. exists []. rewrite app_nil_r.
    rewrite <- (mapM_branch_length _ _ _ _ H), firstn_all. split; [|reflexivity].
    eapply mutated_keeps; [| |exact H]; simpl; auto using set_alarm_keeps.
Qed.

Lemma run_updates_keeps (us : list Update) (prev next : list JsObj) (i : nat) (t : JsObj) :
  run_updates us prev = Some next ->
  prev !! i = Some t ->
  exists t' : JsObj,
    next !! i = Some t' /\ forall k, k ∉ rewritten_keys -> get t' k = get t k.
Proof.
  revert prev t. induction us as [|u us IH]; intros prev t; simpl.
  - intros [= <-] Hi. eauto.
  - destruct (run_update u prev) as [mid|] eqn:Hu; simpl; [|discriminate].
    intros H Hi. destruct (run_update_keeps _ _ _ Hu) as (added & Hk & Hmid).
    destruct (Forall2_lookup_l _ _ _ _ _ Hk Hi) as (tm & Hm & Hkeep).
    assert (Hmi : mid !! i = Some tm).
    { rewrite Hmid. apply lookup_app_l_Some. exact Hm. }
    destruct (IH mid tm H Hmi) as (t' & Ht' & Hkeep'). exists t'. split; [exact Ht'|].
    intros k Hnk. rewrite Hkeep', Hkeep; auto.
Qed.

(** X2. The handler leaves every existing task at its place and rewrites
    only its notes, estimated duration, reminder time and alarm flag: the
    id, title, category, priority, completed flag and creation time of the
    task at each position are what they were. *)
Theorem handler_keeps_identity
    (h : Host) (net : Network) (input : string) (s s' : App) (i : nat) (t : JsObj) :
  handleAiCommand h net input s = Some s' ->
  tasks s !! i = Some t ->
  exists t' : JsObj,
    tasks s' !! i = Some t'
    /\ forall k : string, k ∉ rewritten_keys -> get t' k = get t k.
Proof.
  unfold handleAiCommand. destruct (blank input).
  { intros [= <-] Hi. eauto. }
  destruct (getAIResponse h (provider s) net) as [r|e].
  - destruct (run_updates _ _) as [ts|] eqn:Hu; simpl; [|discriminate].
    intros [= <-] Hi. cbn [tasks push with_tasks] in *.
    eapply run_updates_keeps; eassumption.
  - intros [= <-] Hi. cbn [tasks push]. eauto.
Qed.

Lemma handler_keeps_identity_witness :
  let s := sample_app [report; draft] (Gemini "k") in
  let net := gemini_says [call_part write_report_notes; call_part standup_at_nine] in
  exists s' : App,
    handleAiCommand sample_host net "go" s = Some s'
    /\ exists t' : JsObj,
        tasks s' !! 1%nat = Some t'
        /\ forall k : string, k ∉ rewritten_keys -> get t' k = get draft k.
Proof.
  intros s net.
  destruct (handleAiCommand sample_host net "go" s) as [s'|] eqn:H;
    [|vm_compute in H; discriminate H].
  exists s'. split; [reflexivity|].
  exact (handler_keeps_identity sample_host net "go" s s' 1 draft H eq_refl).
Defined.

(** ** What the handler answers *)

Lemma errorMessage_not_empty (e : Exn) : errorMessage e <> "".
Proof.
  unfold errorMessage.
  destruct (negb (String.eqb (message e) "") && includes (message e) "API key")%bool;
    [discriminate|].
  destruct (negb (String.eqb (message e) "")); [|discriminate].
  change ("Error: " +:+ message e) with (String "E" ("rror: " +:+ message e)). discriminate.
Qed.

Lemma or_text_not_empty (s fallback : string) : fallback <> "" -> or_text s fallback <> "".
Proof.
  intros Hf. unfold or_text. destruct (String.eqb_spec s ""); assumption.
Qed.

(** X3. A blank command changes nothing.  Any other command, written in
    ASCII text, that the handler completes adds exactly two messages to the
    chat, the user's input and then one reply of the model, and that reply
    is never empty, whether the provider answered or failed.  The profile,
    the notes, the active alarm and the provider are left as they were. *)
Theorem handler_always_answers
    (h : Host) (net : Network) (input : string) (s s' : App) :
  handleAiCommand h net input s = Some s' ->
  (blank input = true -> s' = s)
  /\ (ascii_only input = true ->
      blank input = false ->
      exists reply : string,
        reply <> ""
        /\ chatHistory s'
           = chatHistory s
               ++ [ {| ChatMessage.role := user; ChatMessage.text := input |};
                    {| ChatMessage.role := model; ChatMessage.text := reply |} ])
  /\ profile s' = profile s
  /\ generalNotes s' = generalNotes s
  /\ activeAlarm s' = activeAlarm s
  /\ provider s' = provider s.
Proof.
  unfold handleAiCommand. destruct (blank input).
  { intros [= <-]. repeat split; auto; discriminate. }
  destruct (getAIResponse h (provider s) net) as [r|e].
  - destruct (run_updates _ _) as [ts|]; simpl; [|discriminate].
    intros [= <-]. split; [discriminate|]. split; [|auto].
    intros _ _. eexists. split; [|cbn; rewrite <- app_assoc; reflexivity].
    apply or_text_not_empty. discriminate.
  - intros [= <-]. split; [discriminate|]. split; [|auto].
    intros _ _. exists (errorMessage e). split; [apply errorMessage_not_empty|].
    cbn. rewrite <- app_assoc. reflexivity.
Qed.

Lemma handler_always_answers_witness :
  let s := sample_app [report] (Mock "gemini") in
  exists reply : string,
    reply <> ""
    /\ chatHistory (push model configure_hint (push user "hello" s))
       = chatHistory s
           ++ [ {| ChatMessage.role := user; ChatMessage.text := "hello" |};
                {| ChatMessage.role := model; ChatMessage.text := reply |} ].
Proof.
  intros s.
  assert (H : handleAiCommand sample_host (gemini_says []) "hello" s
              = Some (push model configure_hint (push user "hello" s)))
    by (vm_compute; reflexivity).
  exact (proj1 (proj2 (handler_always_answers sample_host _ "hello" s _ H)) eq_refl eq_refl).
Defined.

(** ** The alarm invariant *)

Lemma addTask_alarm_has_time (h : Host) (n : nat) (title category duration notes alarmTime : JsVal) :
  alarm_has_time (addTask h n title category duration notes alarmTime).
Proof.
  destruct (addTask_fields h n title category duration notes alarmTime)
    as (_ & _ & _ & _ & Hr & He & _).
  unfold alarm_has_time. rewrite Hr, He. simpl. auto.
Qed.

Lemma update_notes_alarm_has_time (a t : JsObj) :
  alarm_has_time t -> alarm_has_time (update_notes a t).
Proof.
  unfold alarm_has_time, update_notes. rewrite !get_with_prop.
  repeat case_decide; try congruence; auto.
Qed.

Lemma set_alarm_alarm_has_time (a t : JsObj) :
  truthy (get a "time") = true -> alarm_has_time (set_alarm a t).
Proof.
  intros Ht. unfold alarm_has_time, set_alarm. rewrite !get_with_prop.
  repeat case_decide; try congruence; auto.
Qed.

Lemma mapM_branch_Forall (hit : JsObj -> option bool) (f : JsObj -> JsObj) (P : JsObj -> Prop)
    (prev next : list JsObj) :
  (forall t, P t -> P (f t)) ->
  Forall P prev ->
  mapM (fun t => b ← hit t; Some (if b : bool then f t else t)) prev = Some next ->
  Forall P next.
Proof.
  intros Hf Hprev H. apply mapM_Some_1 in H.
  induction H as [|t t' prev next Ht _ IH]; [constructor|].
  apply Forall_cons in Hprev as [Hp Hprev]. constructor; [|auto].
  simpl in Ht. destruct (hit t) as [[|]|]; simpl in Ht; [| |discriminate];
    injection Ht as <-; auto.
Qed.

Lemma run_update_alarm (u : Update) (prev next : list JsObj) :
  update_names_time u ->
  Forall alarm_has_time prev ->
  run_update u prev = Some next ->
  Forall alarm_has_time next.
Proof.
  destruct u as [t|a|a]; simpl; intros Hu Hprev.
  - intros [= <-]. apply Forall_app. split; [exact Hprev|]. constructor; [exact Hu|constructor].
  - apply mapM_branch_Forall; [|exact Hprev]. intros t. apply update_notes_alarm_has_time.
  - apply mapM_branch_Forall; [|exact Hprev]. intros t _. now apply set_alarm_alarm_has_time.
Qed.

Lemma run_updates_alarm (us : list Update) (prev next : list JsObj) :
  Forall update_names_time us ->
  Forall alarm_has_time prev ->
  run_updates us prev = Some next ->
  Forall alarm_has_time next.
Proof.
  revert prev. induction us as [|u us IH]; intros prev Hus Hprev; simpl.
  - intros [= <-]. exact Hprev.
  - apply Forall_cons in Hus as [Hu Hus].
    destruct (run_update u prev) as [mid|] eqn:Hm; simpl; [|discriminate].
    apply IH; [exact Hus|]. eapply run_update_alarm; eassumption.
Qed.

Lemma dispatch_names_time (h : Host) (fc : FunctionCall) (st : Loop) :
  (name fc = "set_alarm" -> truthy (get (args fc) "time") = true) ->
  Forall update_names_time (queued st) ->
  Forall update_names_time (queued (dispatch h fc st)).
Proof.
  intros Hfc Hst. unfold dispatch.
  destruct (String.eqb_spec (name fc) "create_task") as [E1|E1].
  { cbn [queued say setTasks]. apply Forall_app. split; [exact Hst|].
    constructor; [apply addTask_alarm_has_time | constructor]. }
  destruct (String.eqb_spec (name fc) "update_task_notes") as [E2|E2].
  { cbn [queued say setTasks]. apply Forall_app. split; [exact Hst|].
    constructor; [exact I | constructor]. }
  destruct (String.eqb_spec (name fc) "set_alarm") as [E3|E3]; [|exact Hst].
  cbn [queued say setTasks]. apply Forall_app. split; [exact Hst|].
  constructor; [exact (Hfc E3) | constructor].
Qed.

Lemma process_parts_names_time (h : Host) (ps : list Part) (st : Loop) :
  Forall alarm_names_time ps ->
  Forall update_names_time (queued st) ->
  Forall update_names_time (queued (process_parts h ps st)).
Proof.
  intros Hps. revert st. induction Hps as [|p ps Hp _ IH]; intros st Hst; [exact Hst|].
  change (process_parts h (p :: ps) st) with (process_parts h ps (process_part h st p)).
  apply IH. unfold process_part.
  assert (Hs : forall line, queued (say line st) = queued st) by reflexivity.
  destruct (functionCall p) as [fc|] eqn:Hfc.
  - apply dispatch_names_time; [intros Hn; exact (Hp fc Hfc Hn)|].
    destruct (truthy (text p)); [rewrite Hs|]; exact Hst.
  - destruct (truthy (text p)); [rewrite Hs|]; exact Hst.
Qed.

(** X4. The handler keeps the rule that a task with its alarm enabled has a
    reminder time: if it holds of every task before a command, and every
    set_alarm invocation of the response names a non-empty time, it holds of
    every task after. *)
Theorem handler_keeps_alarm_rule
    (h : Host) (net : Network) (input : string) (s s' : App) :
  handleAiCommand h net input s = Some s' ->
  Forall alarm_has_time (tasks s) ->
  (forall r : AIResponse,
      getAIResponse h (provider s) net = Ok r -> Forall alarm_names_time (parts r)) ->
  Forall alarm_has_time (tasks s').
Proof.
  unfold handleAiCommand. destruct (blank input); [intros [= <-] H _; exact H|].
  destruct (getAIResponse h (provider s) net) as [r|e].
  - destruct (run_updates _ _) as [ts|] eqn:Hu; simpl; [|discriminate].
    intros [= <-] Hprev Hr. cbn [tasks push with_tasks] in *.
    eapply run_updates_alarm; [|exact Hprev|exact Hu].
    apply process_parts_names_time; [apply Hr; reflexivity | constructor].
  - intros [= <-] H _. exact H.
Qed.

Lemma handler_keeps_alarm_rule_witness :
  let s := sample_app [report] (Gemini "k") in
  let net := gemini_says [call_part report_alarm; call_part standup_at_nine] in
  exists s' : App,
    handleAiCommand sample_host net "go" s = Some s'
    /\ Forall alarm_has_time (tasks s').
Proof.
  intros s net.
  destruct (handleAiCommand sample_host net "go" s) as [s'|] eqn:H;
    [|vm_compute in H; discriminate H].
  exists s'. split; [reflexivity|].
  apply (handler_keeps_alarm_rule sample_host net "go" s s' H).
  - repeat constructor. intros Hen. vm_compute in Hen. discriminate Hen.
  - intros r [= <-]. cbn [parts].
    repeat constructor; intros fc [= <-]; vm_compute; intros; try discriminate; reflexivity.
Defined.

(** Without a time the rule is broken: set_alarm with no time argument
    enables the alarm of the task it matches and gives it no reminder time. *)
Example set_alarm_without_time_breaks_rule :
  exists t : JsObj,
    dispatched sample_host set_alarm_without_time [report] = Some [t]
    /\ get t "alarmEnabled" = JBool true
    /\ get t "reminderTime" = JUndefined.
Proof.
  exists (set_alarm (args set_alarm_without_time) report).
  repeat split; vm_compute; reflexivity.
Qed.

(** ** Direct edits of tasks and notes *)

Lemma toggle_get (t : JsObj) (k : string) :
  k <> "completed" -> get (toggle t) k = get t k.
Proof.
  intros Hk. unfold toggle. rewrite get_with_prop. case_decide; congruence.
Qed.

Lemma toggle_completed (t : JsObj) :
  get (toggle t) "completed" = JBool (negb (truthy (get t "completed"))).
Proof. unfold toggle. rewrite get_with_prop. now rewrite decide_True. Qed.

Lemma toggle_toggle (t : JsObj) (b : bool) :
  get t "completed" = JBool b -> toggle (toggle t) = t.
Proof.
  intros Hb. unfold toggle at 1. rewrite toggle_completed, Hb.
  unfold toggle, with_prop. cbn [truthy]. rewrite insert_insert_eq, negb_involutive.
  apply insert_id. unfold get in Hb. destruct (t !! "completed") as [v|]; congruence.
Qed.

(** X5. Toggling a task twice gives back the task list, when the completed
    flag of every task is a boolean; the tasks with another id are never
    touched and the list keeps its length and order. *)
Theorem toggleTask_twice (id : JsVal) (ts : list JsObj) :
  Forall (fun t => exists b : bool, get t "completed" = JBool b) ts ->
  toggleTask id (toggleTask id ts) = ts
  /\ length (toggleTask id ts) = length ts
  /\ forall (i : nat) (t : JsObj),
      ts !! i = Some t -> get t "id" <> id -> toggleTask id ts !! i = Some t.
Proof.
  intros Hts. split; [|split].
  - unfold toggleTask. rewrite List.map_map.
    induction Hts as [|t ts [b Hb] _ IH]; [reflexivity|]. simpl. rewrite IH. f_equal.
    destruct (strict_eq (get t "id") id) eqn:Hid; simpl.
    + rewrite toggle_get by discriminate. rewrite Hid. now apply (toggle_toggle t b).
    + now rewrite Hid.
  - apply length_map.
  - intros i t Hi Hne. unfold toggleTask.
    change (List.map ?f ts) with (f <$> ts). rewrite list_lookup_fmap, Hi. simpl.
    unfold strict_eq. now rewrite bool_decide_eq_false_2.
Qed.

Lemma toggleTask_twice_witness :
  toggleTask (JString "uuid-0") (toggleTask (JString "uuid-0") [report; draft]) = [report; draft].
Proof.
  apply (toggleTask_twice (JString "uuid-0") [report; draft]).
  repeat constructor; exists false; vm_compute; reflexivity.
Defined.

Lemma filter_map_commute {A} (keep : A -> bool) (f : A -> A) (l : list A) :
  (forall x, keep (f x) = keep x) ->
  List.filter keep (List.map f l) = List.map f (List.filter keep l).
Proof.
  intros Hk. induction l as [|x l IH]; [reflexivity|]. simpl. rewrite Hk.
  destruct (keep x); simpl; now rewrite IH.
Qed.

Lemma filter_filter_same {A} (keep : A -> bool) (l : list A) :
  List.filter keep (List.filter keep l) = List.filter keep l.
Proof.
  induction l as [|x l IH]; [reflexivity|]. simpl.
  destruct (keep x) eqn:Hx; simpl; [rewrite Hx|]; now rewrite IH.
Qed.

Lemma map_filter_none {A} (hit keep : A -> bool) (f : A -> A) (l : list A) :
  (forall x, keep x = true -> hit x = false) ->
  List.map (fun x => if hit x then f x else x) (List.filter keep l) = List.filter keep l.
Proof.
  intros Hk. induction l as [|x l IH]; [reflexivity|]. simpl.
  destruct (keep x) eqn:Hx; simpl; [rewrite (Hk x Hx)|]; now rewrite IH.
Qed.

(** X6. Deleting a task and toggling a task can be done in either order;
    once a task is deleted, toggling or deleting its id again changes
    nothing, and no task with that id is left. *)
Theorem deleteTask_composes (id id' : JsVal) (ts : list JsObj) :
  deleteTask id (toggleTask id' ts) = toggleTask id' (deleteTask id ts)
  /\ toggleTask id (deleteTask id ts) = deleteTask id ts
  /\ deleteTask id (deleteTask id ts) = deleteTask id ts
  /\ Forall (fun t => get t "id" <> id) (deleteTask id ts).
Proof.
  split; [|split; [|split]].
  - unfold deleteTask, toggleTask. apply filter_map_commute. intros t.
    destruct (strict_eq (get t "id") id'); [|reflexivity].
    now rewrite toggle_get by discriminate.
  - unfold deleteTask, toggleTask. apply map_filter_none.
    intros t Ht. now apply negb_true_iff in Ht.
  - apply filter_filter_same.
  - unfold deleteTask. apply Forall_forall. intros t Ht.
    apply list_elem_of_In, List.filter_In in Ht as [_ Ht].
    apply negb_true_iff in Ht. unfold strict_eq in Ht.
    now apply bool_decide_eq_false_1 in Ht.
Qed.

(** X7. Editing a note keeps the last text typed, and a note that is edited
    and then deleted is simply deleted: neither edit changes which notes
    there are or their order. *)
Theorem note_edits_compose (id : JsVal) (first second : string) (ns : list JsObj) :
  updateGeneralNote id second (updateGeneralNote id first ns) = updateGeneralNote id second ns
  /\ deleteGeneralNote id (updateGeneralNote id first ns) = deleteGeneralNote id ns
  /\ List.map (fun n => get n "id") (updateGeneralNote id first ns)
     = List.map (fun n => get n "id") ns.
Proof.
  assert (Hid : forall n, get (with_prop "content" (JString first) n) "id" = get n "id").
  { intros n. rewrite get_with_prop. case_decide; [discriminate | reflexivity]. }
  split; [|split].
  - unfold updateGeneralNote. rewrite List.map_map. apply List.map_ext. intros n.
    destruct (strict_eq (get n "id") id) eqn:Hn; simpl.
    + rewrite Hid, Hn. unfold with_prop. now rewrite insert_insert_eq.
    + now rewrite Hn.
  - unfold deleteGeneralNote, updateGeneralNote.
    induction ns as [|n ns IH]; [reflexivity|]. simpl.
    destruct (strict_eq (get n "id") id) eqn:Hn; simpl.
    + rewrite Hid, Hn. simpl. exact IH.
    + rewrite Hn. simpl. now rewrite IH.
  - unfold updateGeneralNote. rewrite List.map_map. apply List.map_ext. intros n.
    destruct (strict_eq (get n "id") id); [apply Hid | reflexivity].
Qed.

(** X8. Marking a task complete silences it: after toggleTask, a tick can
    activate a task with the toggled id only if that task was completed
    before the toggle (so that the toggle re-opened it). *)
Theorem toggled_task_rings_only_if_reopened
    (id : JsVal) (hh mm : nat) (s s' : App) (t' : JsObj) :
  tick hh mm (with_tasks (toggleTask id (tasks s)) s) = (s', true) ->
  activeAlarm s' = Some t' ->
  get t' "id" = id ->
  exists (i : nat) (t : JsObj),
    tasks s !! i = Some t /\ t' = toggle t /\ truthy (get t "completed") = true.
Proof.
  intros Htick Hact Hid.
  destruct (tick_activates hh mm _ s' Htick) as (r & i & Hr & Hi & _ & Hc & _).
  rewrite Hact in Hr. injection Hr as <-.
  cbn [tasks with_tasks] in Hi. unfold toggleTask in Hi.
  change (List.map ?f (tasks s)) with (f <$> tasks s) in Hi.
  rewrite list_lookup_fmap in Hi.
  destruct (tasks s !! i) as [t|] eqn:Ht; simpl in Hi; [|discriminate].
  injection Hi as Hi. exists i, t. split; [exact Ht|].
  destruct (strict_eq (get t "id") id) eqn:Hm.
  - subst t'. split; [reflexivity|]. rewrite toggle_completed in Hc. cbn [truthy] in Hc.
    now apply negb_false_iff in Hc.
  - subst t'. unfold strict_eq in Hm. apply bool_decide_eq_false_1 in Hm. contradiction.
Qed.

Lemma toggled_task_rings_only_if_reopened_witness :
  let s := sample_app [toggle standup] (Mock "gemini") in
  exists (i : nat) (t : JsObj),
    tasks s !! i = Some t /\ standup = toggle t /\ truthy (get t "completed") = true.
Proof.
  intros s.
  apply (toggled_task_rings_only_if_reopened (JString "uuid-0") 9 0 s
           (setActiveAlarm (Some standup) (with_tasks [standup] s)) standup);
    reflexivity.
Defined.

(** ** The slash-command composer *)

Lemma findIndex_spec {A} (f : A -> bool) (l : list A) :
  (findIndex f l = -1 /\ Forall (fun x => f x = false) l)
  \/ (0 <= findIndex f l < Z.of_nat (length l)
      /\ exists x : A,
          at_index l (findIndex f l) = Some x /\ f x = true
          /\ forall (j : Z) (y : A),
              j < findIndex f l -> at_index l j = Some y -> f y = false).
Proof.
  induction l as [|a l IH]; simpl.
  - left. split; [reflexivity | constructor].
  - destruct (f a) eqn:Ha.
    + right. split; [lia|]. exists a. split; [reflexivity|]. split; [exact Ha|].
      intros j y Hj. unfold at_index. destruct (Z.ltb_spec j 0); [discriminate | lia].
    + destruct IH as [[-> Hall]|(Hr & x & Hx & Hfx & Hfirst)].
      * left. split; [reflexivity | constructor; assumption].
      * destruct (Z.eqb_spec (findIndex f l) (-1)) as [E|E]; [lia|].
        right. split; [lia|]. exists x. split; [|split; [exact Hfx|]].
        -- unfold at_index in *. destruct (Z.ltb_spec (findIndex f l) 0); [lia|].
           destruct (Z.ltb_spec (findIndex f l + 1) 0); [lia|].
           replace (Z.to_nat (findIndex f l + 1)) with (S (Z.to_nat (findIndex f l))) by lia.
           exact Hx.
        -- intros j y Hj Hy. unfold at_index in Hy.
           destruct (Z.ltb_spec j 0); [discriminate|].
           destruct (Z.to_nat j) as [|n] eqn:Hn; simpl in Hy; [congruence|].
           apply (Hfirst (j - 1)); [lia|]. unfold at_index.
           destruct (Z.ltb_spec (j - 1) 0); [lia|].
           replace (Z.to_nat (j - 1)) with n by lia. exact Hy.
Qed.

Lemma at_index_in_range {A} (l : list A) (i : Z) :
  0 <= i < Z.of_nat (length l) -> exists x : A, at_index l i = Some x /\ In x l.
Proof.
  intros Hi. unfold at_index. destruct (Z.ltb_spec i 0); [lia|].
  destruct (lookup_lt_is_Some_2 l (Z.to_nat i)) as [x Hx]; [lia|].
  exists x. split; [exact Hx|]. apply list_elem_of_In. eapply list_elem_of_lookup_2. exact Hx.
Qed.

Lemma handleInputChange_in_range (val : string) (c : Composer) :
  index_in_range c -> index_in_range (handleInputChange val c).
Proof.
  intros Hc. unfold handleInputChange, index_in_range in *.
  destruct (String.prefix "/" val); [|exact Hc]. cbn [suggestionIndex].
  destruct (findIndex_spec (fun sc => String.prefix (toLowerCase val) (cmd sc)) SLASH_COMMANDS)
    as [[-> _]|[Hr _]]; [exact Hc|].
  destruct (Z.eqb_spec (findIndex (fun sc => String.prefix (toLowerCase val) (cmd sc))
                          SLASH_COMMANDS) (-1)); [lia | exact Hr].
Qed.

(** X9. The suggestion index never leaves the command list: starting in
    range, every change of the input and every key keeps it in range, and no
    key ever reads a command that is not there. *)
Theorem composer_index_stays_in_range (c : Composer) :
  index_in_range c ->
  (forall val : string, index_in_range (handleInputChange val c))
  /\ (forall key : string,
         exists (c' : Composer) (prevented : bool),
           handleKeyDown key c = Some (c', prevented) /\ index_in_range c')
  /\ exists c' : Composer,
      selectSuggestion (suggestionIndex c) c = Some c' /\ index_in_range c'.
Proof.
  intros Hc. split; [intros val; now apply handleInputChange_in_range|].
  destruct (at_index_in_range SLASH_COMMANDS (suggestionIndex c) Hc) as (sc & Hsc & _).
  split.
  - intros key. unfold handleKeyDown. unfold index_in_range in *.
    change (Z.of_nat (length SLASH_COMMANDS)) with 4 in *.
    destruct (showSuggestions c); [|exists c, false; split; [reflexivity | exact Hc]].
    destruct (String.eqb key "ArrowDown").
    { eexists _, _. split; [reflexivity|]. cbn [suggestionIndex].
      pose proof (Z.rem_bound_pos (suggestionIndex c + 1) 4). lia. }
    destruct (String.eqb key "ArrowUp").
    { eexists _, _. split; [reflexivity|]. cbn [suggestionIndex].
      pose proof (Z.rem_bound_pos (suggestionIndex c - 1 + 4) 4). lia. }
    destruct (String.eqb key "Enter" || String.eqb key "Tab")%bool.
    { rewrite Hsc. simpl. eexists _, _. split; [reflexivity|]. exact Hc. }
    destruct (String.eqb key "Escape");
      eexists _, _; (split; [reflexivity | exact Hc]).
  - unfold selectSuggestion. rewrite Hsc. simpl. eauto.
Qed.

Lemma composer_index_stays_in_range_witness :
  exists (c' : Composer) (prevented : bool),
    handleKeyDown "ArrowDown" (handleInputChange "/al" composer_start) = Some (c', prevented)
    /\ index_in_range c'.
Proof.
  apply (composer_index_stays_in_range (handleInputChange "/al" composer_start)).
  unfold index_in_range. vm_compute. split; [discriminate | reflexivity].
Defined.

(** X10. With the suggestions open, ArrowDown and ArrowUp undo each other,
    and four ArrowDowns come back to the same suggestion. *)
Theorem arrows_cycle (c : Composer) :
  index_in_range c ->
  showSuggestions c = true ->
  (exists c1 : Composer,
      handleKeyDown "ArrowDown" c = Some (c1, true)
      /\ handleKeyDown "ArrowUp" c1 = Some (c, true))
  /\ (exists c1 : Composer,
         handleKeyDown "ArrowUp" c = Some (c1, true)
         /\ handleKeyDown "ArrowDown" c1 = Some (c, true))
  /\ (exists c1 c2 c3 : Composer,
         handleKeyDown "ArrowDown" c = Some (c1, true)
         /\ handleKeyDown "ArrowDown" c1 = Some (c2, true)
         /\ handleKeyDown "ArrowDown" c2 = Some (c3, true)
         /\ handleKeyDown "ArrowDown" c3 = Some (c, true)).
Proof.
  destruct c as [input shown i]. unfold index_in_range. cbn [suggestionIndex showSuggestions].
  change (Z.of_nat (length SLASH_COMMANDS)) with 4.
  intros Hi ->.
  assert (Hcases : i = 0 \/ i = 1 \/ i = 2 \/ i = 3) by lia.
  destruct Hcases as [ -> | [ -> | [ -> | -> ] ] ]; repeat split; repeat eexists; reflexivity.
Qed.

Lemma arrows_cycle_witness :
  exists c1 : Composer,
    handleKeyDown "ArrowDown" (handleInputChange "/" composer_start) = Some (c1, true)
    /\ handleKeyDown "ArrowUp" c1 = Some (handleInputChange "/" composer_start, true).
Proof.
  apply (arrows_cycle (handleInputChange "/" composer_start)).
  - unfold index_in_range. vm_compute. split; [discriminate | reflexivity].
  - reflexivity.
Defined.

(** X11. While the input, in ASCII text, starts with a slash, Enter and Tab
    do not submit it: the key is swallowed and the input is replaced by a
    command followed by a space.  That command is the first one that starts
    with the typed text, letter case apart, when there is one; otherwise it
    is the command that was selected before. *)
Theorem slash_input_completes_to_command (val key : string) (c : Composer) :
  index_in_range c ->
  ascii_only val = true ->
  String.prefix "/" val = true ->
  key = "Enter" \/ key = "Tab" ->
  exists (sc : SlashCommand) (i : Z),
    at_index SLASH_COMMANDS i = Some sc
    /\ handleKeyDown key (handleInputChange val c)
       = Some ({| userInput := cmd sc +:+ " "; showSuggestions := false; suggestionIndex := i |},
               true)
    /\ ((String.prefix (toLowerCase val) (cmd sc) = true
         /\ forall (j : Z) (other : SlashCommand),
             j < i -> at_index SLASH_COMMANDS j = Some other ->
             String.prefix (toLowerCase val) (cmd other) = false)
        \/ (i = suggestionIndex c
            /\ Forall (fun other => String.prefix (toLowerCase val) (cmd other) = false)
                 SLASH_COMMANDS)).
Proof.
  intros Hc _ Hslash Hkey.
  assert (Hk : handleKeyDown key (handleInputChange val c)
               = sc ← at_index SLASH_COMMANDS (suggestionIndex (handleInputChange val c));
                 Some ({| userInput := cmd sc +:+ " "; showSuggestions := false;
                          suggestionIndex := suggestionIndex (handleInputChange val c) |}, true)).
  { unfold handleKeyDown, handleInputChange. rewrite Hslash. cbn [showSuggestions].
    destruct Hkey as [ -> | -> ]; reflexivity. }
  rewrite Hk. unfold handleInputChange. rewrite Hslash. cbn [suggestionIndex].
  pose proof (findIndex_spec (fun sc => String.prefix (toLowerCase val) (cmd sc)) SLASH_COMMANDS)
    as Hspec.
  set (i := findIndex (fun sc => String.prefix (toLowerCase val) (cmd sc)) SLASH_COMMANDS) in *.
  clearbody i.
  destruct Hspec as [[E Hnone]|(Hr & sc & Hsc & Hhit & Hfirst)].
  - subst i. rewrite Z.eqb_refl. cbn [negb].
    destruct (at_index_in_range SLASH_COMMANDS (suggestionIndex c) Hc) as (sc & Hsc & _).
    exists sc, (suggestionIndex c). rewrite Hsc.
    split; [reflexivity|]. split; [reflexivity|]. right. split; [reflexivity | exact Hnone].
  - destruct (Z.eqb_spec i (-1)) as [E|E]; [lia|]. cbn [negb].
    exists sc, i. rewrite Hsc.
    split; [reflexivity|]. split; [reflexivity|]. left. split; [exact Hhit | exact Hfirst].
Qed.

Lemma slash_input_completes_to_command_witness :
  exists (sc : SlashCommand) (i : Z),
    at_index SLASH_COMMANDS i = Some sc
    /\ handleKeyDown "Enter" (handleInputChange "/AL" composer_start)
       = Some ({| userInput := cmd sc +:+ " "; showSuggestions := false; suggestionIndex := i |},
               true)
    /\ ((String.prefix (toLowerCase "/AL") (cmd sc) = true
         /\ forall (j : Z) (other : SlashCommand),
             j < i -> at_index SLASH_COMMANDS j = Some other ->
             String.prefix (toLowerCase "/AL") (cmd other) = false)
        \/ (i = suggestionIndex composer_start
            /\ Forall (fun other => String.prefix (toLowerCase "/AL") (cmd other) = false)
                 SLASH_COMMANDS)).
Proof.
  apply (slash_input_completes_to_command "/AL" "Enter" composer_start).
  - unfold index_in_range. vm_compute. split; [discriminate | reflexivity].
  - reflexivity.
  - reflexivity.
  - left. reflexivity.
Defined.

Example slash_input_with_arguments :
  handleKeyDown "Enter" (handleInputChange "/AL" composer_start)
  = Some ({| userInput := "/alarm "; showSuggestions := false; suggestionIndex := 2 |}, true)
  /\ handleKeyDown "Enter" (handleInputChange "/alarm stand-up 09:00" composer_start)
     = Some ({| userInput := "/task "; showSuggestions := false; suggestionIndex := 0 |}, true)
  /\ handleKeyDown "Enter" (handleInputChange "hello" composer_start)
     = Some (handleInputChange "hello" composer_start, false).
Proof. repeat split; vm_compute; reflexivity. Qed.

(** ** Searching the task list *)

Lemma prefix_app (p s : string) :
  String.prefix p s = true <-> exists rest : string, s = p +:+ rest.
Proof.
  revert s. induction p as [|c p IH]; intros s.
  - split; [intros _; exists s; reflexivity|]. intros _. destruct s; reflexivity.
  - destruct s as [|d s]; simpl.
    + split; [discriminate|]. intros [rest H]. discriminate H.
    + destruct (ascii_dec c d) as [->|Hne].
      * rewrite IH. split; intros [rest H]; exists rest.
        -- now rewrite H.
        -- now injection H.
      * split; [discriminate|]. intros [rest H]. injection H as H _. congruence.
Qed.

Lemma includes_app (s sub : string) :
  includes s sub = true <-> exists pre post : string, s = pre +:+ sub +:+ post.
Proof.
  induction s as [|c s IH].
  - change (includes "" sub) with (String.prefix sub "" || false)%bool.
    rewrite orb_false_r, prefix_app. split.
    + intros [rest H]. exists "", rest. exact H.
    + intros (pre & post & H). destruct pre; [exists post; exact H | discriminate H].
  - change (includes (String c s) sub)
      with (String.prefix sub (String c s) || includes s sub)%bool.
    rewrite orb_true_iff, prefix_app, IH. split.
    + intros [[rest H]|(pre & post & H)].
      * exists "", rest. exact H.
      * exists (String c pre), post. now rewrite H.
    + intros (pre & post & H). destruct pre as [|d pre].
      * left. exists post. exact H.
      * right. injection H as _ H. eauto.
Qed.

Lemma includes_trans (a b c : string) :
  includes a b = true -> includes b c = true -> includes a c = true.
Proof.
  rewrite !includes_app. intros (p1 & q1 & ->) (p2 & q2 & ->).
  exists (p1 +:+ p2), (q2 +:+ q1). now rewrite !append_assoc.
Qed.

Lemma lower_ascii_space (c : ascii) : is_space (lower_ascii c) = is_space c.
Proof.
  unfold lower_ascii.
  destruct (Nat.leb 65 (nat_of_ascii c) && Nat.leb (nat_of_ascii c) 90)%bool eqn:H; [|reflexivity].
  apply andb_prop in H as [H1 H2]. apply Nat.leb_le in H1, H2.
  unfold is_space. rewrite nat_ascii_embedding by lia.
  repeat match goal with
         | |- context [Nat.eqb ?a ?b] => destruct (Nat.eqb_spec a b); try lia
         | |- context [Nat.leb ?a ?b] => destruct (Nat.leb_spec a b); try lia
         end; reflexivity.
Qed.

Lemma blank_toLowerCase (s : string) : blank (toLowerCase s) = blank s.
Proof. induction s as [|c s IH]; simpl; [reflexivity|]. now rewrite lower_ascii_space, IH. Qed.

Lemma trim_end_blank (s : string) : (String.eqb (trim_end s) "") = blank s.
Proof.
  induction s as [|c s IH]; [reflexivity|]. simpl. rewrite IH.
  destruct (is_space c), (blank s); reflexivity.
Qed.

Lemma blank_trim_start (s : string) : blank (trim_start s) = blank s.
Proof.
  induction s as [|c s IH]; [reflexivity|]. simpl.
  destruct (is_space c) eqn:Hc; simpl; [exact IH | now rewrite Hc].
Qed.

(** [!s.trim()] is [blank s]. *)
Lemma trim_blank (s : string) : String.eqb (trim s) "" = blank s.
Proof. unfold trim. now rewrite trim_end_blank, blank_trim_start. Qed.

Lemma search_hit_searchable (query : string) (t : JsObj) :
  searchable t -> search_hit query t = Some (mentions query t).
Proof.
  intros [[title Ht] Hn]. unfold search_hit, mentions. rewrite Ht. simpl.
  destruct (includes (toLowerCase title) query); [reflexivity|]. simpl.
  destruct Hn as [-> | [-> | [notes ->]]]; reflexivity.
Qed.

Lemma filter_opt_total {A} (f : A -> option bool) (g : A -> bool) (P : A -> Prop) (xs : list A) :
  (forall x, P x -> f x = Some (g x)) ->
  Forall P xs ->
  filter_opt f xs = Some (List.filter g xs).
Proof.
  intros Hf Hxs. induction Hxs as [|x xs Hx _ IH]; [reflexivity|].
  simpl. rewrite (Hf x Hx), IH. simpl. destruct (g x); reflexivity.
Qed.

Lemma filteredTasks_searchable (searchQuery : string) (ts : list JsObj) :
  Forall searchable ts ->
  filteredTasks searchQuery ts
  = Some (if blank searchQuery then ts
          else List.filter (mentions (normal_query searchQuery)) ts).
Proof.
  intros Hts. unfold filteredTasks. fold (normal_query searchQuery).
  unfold normal_query at 1. rewrite trim_blank, blank_toLowerCase.
  destruct (blank searchQuery); [reflexivity|].
  apply (filter_opt_total _ _ searchable); [|exact Hts].
  intros t. apply search_hit_searchable.
Qed.

Lemma searchable_ascii_searchable (ts : list JsObj) :
  Forall searchable_ascii ts -> Forall searchable ts.
Proof. intros H. eapply Forall_impl; [exact H|]. intros t [Ht _]. exact Ht. Qed.

(** X12. For a query in ASCII text, on tasks whose titles are ASCII strings
    and whose notes are ASCII strings or absent, the search never throws; a
    blank query shows every task, any other query shows, in stored order,
    exactly the tasks whose title or notes contain the trimmed, lower-cased
    query. *)
Theorem search_shows_matches (searchQuery : string) (ts : list JsObj) :
  ascii_only searchQuery = true ->
  Forall searchable_ascii ts ->
  exists shown : list JsObj,
    filteredTasks searchQuery ts = Some shown
    /\ sublist shown ts
    /\ (blank searchQuery = true -> shown = ts)
    /\ (blank searchQuery = false ->
        forall t : JsObj,
          In t shown <-> In t ts /\ mentions (normal_query searchQuery) t = true).
Proof.
  intros _ Hascii. pose proof (searchable_ascii_searchable ts Hascii) as Hts. clear Hascii.
  eexists. split; [apply filteredTasks_searchable; exact Hts|].
  destruct (blank searchQuery).
  - split; [reflexivity|]. split; [reflexivity | discriminate].
  - split.
    + induction ts as [|t ts' IH]; [constructor|]. simpl.
      apply Forall_cons in Hts as [_ Hts].
      destruct (mentions _ t); [apply sublist_skip | apply sublist_cons]; auto.
    + split; [discriminate|]. intros _ t. apply List.filter_In.
Qed.

Lemma search_shows_matches_witness :
  exists shown : list JsObj,
    filteredTasks " DRAFT " [report; draft] = Some shown
    /\ sublist shown [report; draft]
    /\ (blank " DRAFT " = true -> shown = [report; draft])
    /\ (blank " DRAFT " = false ->
        forall t : JsObj,
          In t shown <-> In t [report; draft] /\ mentions (normal_query " DRAFT ") t = true).
Proof.
  apply (search_shows_matches " DRAFT " [report; draft]); [reflexivity|].
  repeat constructor;
    try (eexists; vm_compute; reflexivity);
    try (left; vm_compute; reflexivity);
    intros text Htext; vm_compute in Htext; injection Htext as <-; reflexivity.
Defined.

Lemma mentions_narrows (q1 q2 : string) (t : JsObj) :
  includes q2 q1 = true -> mentions q2 t = true -> mentions q1 t = true.
Proof.
  intros Hq. unfold mentions. rewrite !orb_true_iff.
  intros [H|H]; [left|right];
    [destruct (get t "title") | destruct (get t "notes")]; try discriminate;
    eapply includes_trans; eassumption.
Qed.

(** X13. Refining the query narrows the result, for queries in ASCII text
    on tasks with ASCII titles and notes: when the normalised form of one
    query occurs inside that of another, every task shown for the longer
    query is shown for the shorter one. *)
Theorem search_refines (q1 q2 : string) (ts shown1 shown2 : list JsObj) :
  ascii_only q1 = true ->
  ascii_only q2 = true ->
  Forall searchable_ascii ts ->
  includes (normal_query q2) (normal_query q1) = true ->
  filteredTasks q1 ts = Some shown1 ->
  filteredTasks q2 ts = Some shown2 ->
  forall t : JsObj, In t shown2 -> In t shown1.
Proof.
  intros _ _ Hascii Hq. pose proof (searchable_ascii_searchable ts Hascii) as Hts. clear Hascii.
  rewrite !filteredTasks_searchable by exact Hts.
  intros [= <-] [= <-] t.
  assert (Hsub : In t (if blank q2 then ts else List.filter (mentions (normal_query q2)) ts)
                 -> In t ts).
  { destruct (blank q2); [auto|]. intros H. now apply List.filter_In in H. }
  destruct (blank q1) eqn:Hb1; [exact Hsub|].
  destruct (blank q2) eqn:Hb2.
  - (* the longer query is blank, so the shorter one is too *)
    exfalso. unfold normal_query in Hq.
    pose proof (trim_blank (toLowerCase q2)) as H2. rewrite blank_toLowerCase, Hb2 in H2.
    apply String.eqb_eq in H2. rewrite H2 in Hq.
    pose proof (trim_blank (toLowerCase q1)) as H1. rewrite blank_toLowerCase, Hb1 in H1.
    apply String.eqb_neq in H1.
    apply includes_app in Hq as (pre & post & Hq).
    destruct pre; [|discriminate Hq]. destruct (trim (toLowerCase q1)); [congruence | discriminate Hq].
  - rewrite !List.filter_In. intros [Hin Hm]. split; [exact Hin|].
    eapply mentions_narrows; eassumption.
Qed.

Lemma search_refines_witness : In draft [report; draft].
Proof.
  apply (search_refines "report" "Report D" [report; draft] [report; draft] [draft]).
  - reflexivity.
  - reflexivity.
  - repeat constructor;
      try (eexists; vm_compute; reflexivity);
      try (left; vm_compute; reflexivity);
      intros text Htext; vm_compute in Htext; injection Htext as <-; reflexivity.
  - reflexivity.
  - reflexivity.
  - reflexivity.
  - left. reflexivity.
Defined.

(** ** The chart *)

Lemma list_sum_filter_positive (l : list (string * nat)) :
  list_sum (List.map snd (List.filter (fun d => Nat.ltb 0 (snd d)) l)) = list_sum (List.map snd l).
Proof.
  induction l as [|[cat n] l IH]; [reflexivity|]. simpl.
  destruct n as [|n]; simpl; rewrite IH; reflexivity.
Qed.

Lemma slices_count (ts : list JsObj) :
  list_sum (List.map snd
              (List.map (fun cat =>
                           (cat, length (List.filter
                                           (fun t => strict_eq (get t "category") (JString cat)) ts)))
                 TaskCategory_values))
  = length (List.filter has_known_category ts).
Proof.
  induction ts as [|t ts IH]; [reflexivity|].
  cbn [List.filter List.map TaskCategory_values snd list_sum] in *.
  unfold has_known_category at 1. cbn [existsb TaskCategory_values].
  destruct (strict_eq (get t "category") (JString "Private")) eqn:E1,
           (strict_eq (get t "category") (JString "Education")) eqn:E2,
           (strict_eq (get t "category") (JString "Entertainment")) eqn:E3,
           (strict_eq (get t "category") (JString "Others")) eqn:E4;
    try (exfalso;
         match goal with
         | Ha : strict_eq ?v (JString ?a) = true, Hb : strict_eq ?v (JString ?b) = true |- _ =>
             apply bool_decide_eq_true_1 in Ha, Hb; congruence
         end);
    unfold list_sum in *; cbn [fold_right length orb] in *; lia.
Qed.

(** X14. The slices of the chart add up to the number of tasks whose
    category is one of the four categories, no slice is empty, and there are
    at most four of them. *)
Theorem chart_counts_tasks (ts : list JsObj) :
  slices_total (categoryStats ts) = length (List.filter has_known_category ts)
  /\ (slices_total (categoryStats ts) <= length ts)%nat
  /\ Forall (fun d => (0 < snd d)%nat) (categoryStats ts)
  /\ (length (categoryStats ts) <= 4)%nat.
Proof.
  assert (Htotal : slices_total (categoryStats ts) = length (List.filter has_known_category ts)).
  { unfold slices_total, categoryStats. rewrite list_sum_filter_positive. apply slices_count. }
  split; [exact Htotal|]. split; [rewrite Htotal; apply List.filter_length_le|]. split.
  - unfold categoryStats. apply Forall_forall. intros d Hd.
    apply list_elem_of_In, List.filter_In in Hd as [_ Hd]. now apply Nat.ltb_lt in Hd.
  - unfold categoryStats. etransitivity; [apply List.filter_length_le|].
    rewrite length_map. reflexivity.
Qed.

(** ** The settings dialog and the provider *)

Lemma or_else_key (a b : option string) (k : string) :
  or_else (or_else a b) None = Some k ->
  k <> "" /\ (a = Some k \/ ((a = None \/ a = Some "") /\ b = Some k)).
Proof.
  unfold or_else. destruct a as [s|].
  - destruct (String.eqb_spec s "") as [->|Hs].
    + destruct b as [t|]; [|discriminate]. destruct (String.eqb_spec t ""); [discriminate|].
      intros [= <-]. auto.
    + rewrite (proj2 (String.eqb_neq s "") Hs). intros [= <-]. auto.
  - destruct b as [t|]; [|discriminate]. destruct (String.eqb_spec t ""); [discriminate|].
    intros [= <-]. auto.
Qed.

Lemma or_else_no_key (a b : option string) :
  or_else (or_else a b) None = None ->
  (a = None \/ a = Some "") /\ (b = None \/ b = Some "").
Proof.
  unfold or_else. destruct a as [s|].
  - destruct (String.eqb_spec s "") as [->|Hs].
    + destruct b as [t|]; [|auto]. destruct (String.eqb_spec t "") as [->|]; [auto | discriminate].
    + rewrite (proj2 (String.eqb_neq s "") Hs). discriminate.
  - destruct b as [t|]; [|auto]. destruct (String.eqb_spec t "") as [->|]; [auto | discriminate].
Qed.

(** X15. How the provider is resolved.  The adapter never holds an empty
    key.  OpenAI is chosen exactly when the configured name is "openai",
    letter case apart, and any other name gives Gemini.  The key is the
    provider's own key when that is set and not empty, and the shared key
    otherwise; the stand-in is built exactly when both are missing or empty. *)
Theorem provider_resolution (ls : Storage) :
  let own := if String.eqb (toLowerCase (configured_provider ls)) "openai"
             then "openai_api_key" else "gemini_api_key" in
  let unset (k : string) := ls !! k = None \/ ls !! k = Some "" in
  match AIService.createProvider ls with
  | Mock aiProvider => aiProvider = configured_provider ls /\ unset own /\ unset "aiApiKey"
  | OpenAI apiKey =>
      toLowerCase (configured_provider ls) = "openai" /\ apiKey <> ""
      /\ (ls !! own = Some apiKey \/ (unset own /\ ls !! "aiApiKey" = Some apiKey))
  | Gemini apiKey =>
      toLowerCase (configured_provider ls) <> "openai" /\ apiKey <> ""
      /\ (ls !! own = Some apiKey \/ (unset own /\ ls !! "aiApiKey" = Some apiKey))
  end.
Proof.
  intros own unset. unfold AIService.createProvider. fold (configured_provider ls).
  unfold AIService.getApiKey. subst own.
  destruct (String.eqb_spec (toLowerCase (configured_provider ls)) "openai") as [E|E].
  - destruct (or_else (or_else (ls !! "openai_api_key") (ls !! "aiApiKey")) None) as [k|] eqn:Hk.
    + apply or_else_key in Hk as [Hne Hk]. auto.
    + apply or_else_no_key in Hk. split; [reflexivity | exact Hk].
  - destruct (or_else (or_else (ls !! "gemini_api_key") (ls !! "aiApiKey")) None) as [k|] eqn:Hk.
    + apply or_else_key in Hk as [Hne Hk]. auto.
    + apply or_else_no_key in Hk. split; [reflexivity | exact Hk].
Qed.

Lemma configured_provider_not_empty (ls : Storage) : configured_provider ls <> "".
Proof.
  unfold configured_provider, or_else. destruct (ls !! "aiProvider") as [s|]; [|discriminate].
  destruct (String.eqb_spec s ""); simpl; [discriminate | assumption].
Qed.

Lemma saveSettings_lookup (ls : Storage) :
  saveSettings ls !! "aiProvider" = Some (configured_provider ls)
  /\ saveSettings ls !! "aiApiKey" = Some (default "" (or_else (ls !! "aiApiKey") (Some "")))
  /\ forall k : string, k <> "aiProvider" -> k <> "aiApiKey" -> saveSettings ls !! k = ls !! k.
Proof.
  unfold saveSettings. fold (configured_provider ls). split; [|split].
  - rewrite lookup_insert_ne by discriminate. apply lookup_insert_eq.
  - rewrite lookup_insert_eq. now rewrite lookup_insert_ne by discriminate.
  - intros k H1 H2. now rewrite !lookup_insert_ne by congruence.
Qed.

Lemma createProvider_ext (ls ls' : Storage) :
  or_else (ls' !! "aiProvider") (Some "gemini") = or_else (ls !! "aiProvider") (Some "gemini") ->
  or_else (ls' !! "aiApiKey") None = or_else (ls !! "aiApiKey") None ->
  ls' !! "openai_api_key" = ls !! "openai_api_key" ->
  ls' !! "gemini_api_key" = ls !! "gemini_api_key" ->
  AIService.createProvider ls' = AIService.createProvider ls.
Proof.
  intros Hp Hk Ho Hg. unfold AIService.createProvider, AIService.getApiKey.
  rewrite Hp, Ho, Hg.
  assert (Hor : forall a, or_else (or_else a (ls' !! "aiApiKey")) None
                          = or_else (or_else a (ls !! "aiApiKey")) None).
  { intros a. unfold or_else in *. destruct a as [s|]; [destruct (String.eqb s "")|];
      try reflexivity; exact Hk. }
  now rewrite !Hor.
Qed.

(** X16. Save Settings does not change which provider and key are resolved,
    and pressing it again changes nothing more. *)
Theorem saveSettings_keeps_provider (ls : Storage) :
  AIService.createProvider (saveSettings ls) = AIService.createProvider ls
  /\ saveSettings (saveSettings ls) = saveSettings ls.
Proof.
  destruct (saveSettings_lookup ls) as (Hp & Hk & Hother).
  split.
  - apply createProvider_ext.
    + rewrite Hp. unfold configured_provider, or_else.
      destruct (ls !! "aiProvider") as [s|]; [|reflexivity].
      destruct (String.eqb_spec s "") as [->|Hs]; simpl; [reflexivity|].
      now rewrite (proj2 (String.eqb_neq s "") Hs).
    + rewrite Hk. unfold or_else. destruct (ls !! "aiApiKey") as [s|]; [|reflexivity].
      destruct (String.eqb_spec s "") as [->|Hs]; simpl; [reflexivity|].
      now rewrite (proj2 (String.eqb_neq s "") Hs).
    + apply Hother; discriminate.
    + apply Hother; discriminate.
  - apply map_eq. intros k.
    destruct (saveSettings_lookup (saveSettings ls)) as (Hp' & Hk' & Hother').
    destruct (decide (k = "aiProvider")) as [->|H1].
    { rewrite Hp', Hp. f_equal. unfold configured_provider. rewrite Hp.
      fold (configured_provider ls). unfold or_else.
      pose proof (configured_provider_not_empty ls) as Hne.
      now rewrite (proj2 (String.eqb_neq _ "") Hne). }
    destruct (decide (k = "aiApiKey")) as [->|H2].
    { rewrite Hk', Hk. f_equal. unfold or_else. destruct (ls !! "aiApiKey") as [s|]; [|reflexivity].
      destruct (String.eqb_spec s "") as [->|Hs]; simpl; [reflexivity|].
      now rewrite (proj2 (String.eqb_neq s "") Hs). }
    now rewrite Hother', Hother.
Qed.

(** X17. The one key field of the settings dialog serves both vendors: with
    no vendor-specific key stored, the key that was entered is the key of
    whichever provider is chosen, so switching the provider sends the same
    key to the other vendor. *)
Theorem shared_key_follows_provider (key : string) (ls : Storage) :
  key <> "" ->
  ls !! "openai_api_key" = None ->
  ls !! "gemini_api_key" = None ->
  AIService.createProvider (chooseProvider "openai" (enterApiKey key ls)) = OpenAI key
  /\ AIService.createProvider (chooseProvider "gemini" (enterApiKey key ls)) = Gemini key.
Proof.
  intros Hne Ho Hg. apply String.eqb_neq in Hne.
  assert (Hkey : forall v, chooseProvider v (enterApiKey key ls) !! "aiApiKey" = Some key).
  { intros v. unfold chooseProvider, enterApiKey.
    rewrite lookup_insert_ne by discriminate. apply lookup_insert_eq. }
  assert (Hown : forall v k, k <> "aiProvider" -> k <> "aiApiKey" ->
                             chooseProvider v (enterApiKey key ls) !! k = ls !! k).
  { intros v k H1 H2. unfold chooseProvider, enterApiKey.
    now rewrite !lookup_insert_ne by congruence. }
  split.
  - unfold AIService.createProvider, AIService.getApiKey.
    replace (chooseProvider "openai" (enterApiKey key ls) !! "aiProvider") with (Some "openai")
      by (symmetry; apply lookup_insert_eq).
    change (default "gemini" (or_else (Some "openai") (Some "gemini"))) with "openai".
    change (String.eqb (toLowerCase "openai") "openai") with true. cbn iota.
    rewrite Hkey, Hown, Ho by discriminate. unfold or_else. now rewrite Hne.
  - unfold AIService.createProvider, AIService.getApiKey.
    replace (chooseProvider "gemini" (enterApiKey key ls) !! "aiProvider") with (Some "gemini")
      by (symmetry; apply lookup_insert_eq).
    change (default "gemini" (or_else (Some "gemini") (Some "gemini"))) with "gemini".
    change (String.eqb (toLowerCase "gemini") "openai") with false. cbn iota.
    rewrite Hkey, Hown, Hg by discriminate. unfold or_else. now rewrite Hne.
Qed.

Lemma shared_key_follows_provider_witness :
  AIService.createProvider (chooseProvider "openai" (enterApiKey "sk-1" ∅)) = OpenAI "sk-1"
  /\ AIService.createProvider (chooseProvider "gemini" (enterApiKey "sk-1" ∅)) = Gemini "sk-1".
Proof.
  apply (shared_key_follows_provider "sk-1" ∅); [discriminate | reflexivity | reflexivity].
Defined.

(** ** More on the alarm tick *)

Lemma tick_frame (hh mm : nat) (s : App) :
  tasks (fst (tick hh mm s)) = tasks s
  /\ chatHistory (fst (tick hh mm s)) = chatHistory s
  /\ generalNotes (fst (tick hh mm s)) = generalNotes s
  /\ (activeAlarm (fst (tick hh mm s)) = activeAlarm s
      \/ exists t : JsObj, In t (tasks s) /\ activeAlarm (fst (tick hh mm s)) = Some t).
Proof.
  unfold tick. destruct (List.find _ (tasks s)) as [t|] eqn:Hf; [|auto].
  destruct (negb _); cbn; [|auto].
  repeat split. right. exists t. split; [|reflexivity].
  apply List.find_some in Hf. tauto.
Qed.

(** X20. Ticks alone never change the tasks, the notes or the chat, and
    they never clear an alarm: after any run of ticks the active alarm is
    the one there was before, or a task of the list; if an alarm was active
    before, one is active after. *)
Theorem ticks_never_clear (times : list (nat * nat)) (s : App) :
  tasks (ticks times s) = tasks s
  /\ chatHistory (ticks times s) = chatHistory s
  /\ generalNotes (ticks times s) = generalNotes s
  /\ (activeAlarm (ticks times s) = activeAlarm s
      \/ exists t : JsObj, In t (tasks s) /\ activeAlarm (ticks times s) = Some t)
  /\ (activeAlarm s = None \/ is_Some (activeAlarm (ticks times s))).
Proof.
  revert s. induction times as [|[hh mm] times IH]; intros s.
  - simpl. repeat split; auto. destruct (activeAlarm s); eauto.
  - simpl. destruct (IH (fst (tick hh mm s))) as (Ht & Hc & Hn & Ha & Hs).
    destruct (tick_frame hh mm s) as (Ht' & Hc' & Hn' & Ha').
    rewrite Ht, Hc, Hn, Ht', Hc', Hn'. repeat split.
    + destruct Ha as [Ha|(t & Hin & Ha)].
      * rewrite Ha. exact Ha'.
      * right. exists t. rewrite Ht' in Hin. auto.
    + destruct (activeAlarm s) as [a|] eqn:Hact; [|auto]. right.
      destruct Hs as [Hs|Hs]; [|exact Hs].
      destruct Ha' as [Ha'|(t & _ & Ha')]; congruence.
Qed.

(** ** The vendor-B adapter, in order *)

(** X21. When the vendor-B reply has tool-call entries and the adapter
    answers, the response has one part per entry, in the vendor's order: each
    part carries the name of its entry and the object its argument text
    parses to. *)
Theorem openai_calls_in_order
    (h : Host) (response : Response Message) (calls : list ToolCall) (r : AIResponse) :
  tool_calls (json response) = Some calls ->
  OpenAIProvider.generateContent h (Ok response) = Ok r ->
  Forall2 (fun call p =>
             exists a : JsObj,
               JSON_parse h (function_arguments call) = Ok a
               /\ p = call_part {| name := function_name call; args := a |})
    calls (parts r).
Proof.
  intros Ht Hr. apply openai_generateContent_Ok in Hr as (response' & [= <-] & _ & Hc).
  unfold OpenAIProvider.convert in Hc. rewrite Ht in Hc.
  destruct (map_result _ calls) as [ps|e] eqn:Hps; simpl in Hc; [|discriminate].
  injection Hc as <-. cbn [parts]. apply map_result_Ok in Hps.
  eapply Forall2_impl; [exact Hps|]. intros call p. unfold OpenAIProvider.convert_call.
  destruct (JSON_parse h (function_arguments call)) as [a|e]; simpl; [|discriminate].
  intros [= <-]. eauto.
Qed.

Lemma openai_calls_in_order_witness :
  Forall2 (fun call p =>
             exists a : JsObj,
               JSON_parse sample_host (function_arguments call) = Ok a
               /\ p = call_part {| name := function_name call; args := a |})
    [ {| function_name := "set_alarm"; function_arguments := alarm_arguments |} ]
    (parts {| parts := [call_part report_alarm] |}).
Proof.
  apply (openai_calls_in_order sample_host
           (completion JNull (Some [ {| function_name := "set_alarm";
                                        function_arguments := alarm_arguments |} ]))).
  - reflexivity.
  - reflexivity.
Defined.

Lemma pretty_N_go_not_empty (x : N) (s : string) : s <> "" -> pretty_N_go x s <> "".
Proof.
  revert s. induction (N.lt_wf_0 x) as [x _ IH]; intros s Hs.
  assert (Hx : (x = 0 \/ 0 < x)%N) by lia. destruct Hx as [->|Hx].
  - now rewrite pretty_N_go_0.
  - rewrite pretty_N_go_step by exact Hx. apply IH; [now apply N.div_lt | discriminate].
Qed.

Lemma pretty_Z_not_empty (n : Z) : pretty n <> "".
Proof.
  assert (Hpos : forall p : positive, pretty p <> "").
  { intros p. unfold pretty, pretty_positive, pretty, pretty_N.
    destruct (decide (N.pos p = 0%N)); [discriminate|].
    rewrite pretty_N_go_step by lia. apply pretty_N_go_not_empty. discriminate. }
  unfold pretty, pretty_Z. destruct n as [|p|p]; [discriminate | apply Hpos |].
  change ("-" +:+ pretty p) with (String "-" (pretty p)). discriminate.
Qed.

Lemma truthy_to_string (v : JsVal) : truthy v = true -> to_string v <> "".
Proof.
  destruct v as [| |[|]|n|said]; simpl; try discriminate.
  - intros _. apply pretty_Z_not_empty.
  - intros Hs. apply negb_true_iff in Hs. now apply String.eqb_neq.
Qed.

(** X22. A vendor-B reply without tool calls is shown as it is: the chat
    gets the message content when that is truthy (a non-empty string), and
    the fallback text when the content is null or empty; the tasks are not
    touched. *)
Theorem openai_text_reply
    (h : Host) (net : Network) (response : Response Message) (input key : string) (s : App) :
  provider s = OpenAI key ->
  openai_fetch net = Ok response ->
  ok response = true ->
  tool_calls (json response) = None ->
  blank input = false ->
  handleAiCommand h net input s
  = Some (push model
            (if truthy (content (json response))
             then to_string (content (json response))
             else "I've updated your schedule accordingly.")
            (push user input s)).
Proof.
  intros Hp Hf Hok Ht Hb.
  assert (Hr : getAIResponse h (provider s) net
               = Ok {| parts := [text_part (content (json response))] |}).
  { rewrite Hp. unfold getAIResponse, AIService.generateContent, OpenAIProvider.generateContent.
    rewrite Hf. simpl. rewrite Hok. simpl. unfold OpenAIProvider.convert. now rewrite Ht. }
  rewrite (handle_ok h net input s _ Hb Hr). cbn [parts].
  unfold process_parts, process_part, text_part. cbn [fold_left text functionCall].
  destruct (truthy (content (json response))) eqn:Htruthy; [|reflexivity].
  cbn [say modelResponseText queued loop_start run_updates mbind option_bind].
  change ("" +:+ to_string (content (json response))) with (to_string (content (json response))).
  unfold or_text.
  rewrite (proj2 (String.eqb_neq _ "") (truthy_to_string _ Htruthy)). reflexivity.
Qed.

Lemma openai_text_reply_witness :
  let s := sample_app [report] (OpenAI "sk") in
  handleAiCommand sample_host (openai_says (completion (JString "All set.") None)) "hi" s
  = Some (push model "All set." (push user "hi" s)).
Proof.
  intros s.
  exact (openai_text_reply sample_host (openai_says (completion (JString "All set.") None))
           (completion (JString "All set.") None) "hi" "sk" s
           eq_refl eq_refl eq_refl eq_refl eq_refl).
Defined.

(** ** sw.js *)

Import ServiceWorker.

Lemma caches_match_new_cache (cs : CacheStorage) (cache_name path : string) :
  caches_match (cs ++ [(cache_name, ∅)]) path = caches_match cs path.
Proof.
  induction cs as [|[n c] cs IH]; simpl; [reflexivity|].
  destruct (c !! path); [reflexivity | exact IH].
Qed.

Lemma caches_open_match (cs : CacheStorage) (cache_name path : string) :
  caches_match (caches_open cache_name cs) path = caches_match cs path.
Proof.
  unfold caches_open. destruct (existsb _ cs); [reflexivity | apply caches_match_new_cache].
Qed.

Lemma activate_caches_open (cs : CacheStorage) :
  exists (c : Cache) (rest : CacheStorage),
    activate (caches_open CACHE_NAME cs) = (CACHE_NAME, c) :: rest.
Proof.
  unfold caches_open. destruct (existsb _ cs) eqn:He.
  - induction cs as [|[n c] cs IH]; [discriminate|]. cbn [existsb fst] in He.
    unfold activate. cbn [List.filter fst].
    destruct (String.eqb_spec n CACHE_NAME) as [->|Hn]; cbn [negb].
    + eauto.
    + simpl in He. apply IH in He as (c' & rest & He). eauto.
  - induction cs as [|[n c] cs IH].
    + simpl. eauto.
    + cbn [existsb fst] in He. apply orb_false_iff in He as [Hn He].
      unfold activate. cbn [app List.filter fst]. rewrite Hn. cbn [negb]. now apply IH.
Qed.

Lemma activate_in_cache (f : Cache -> Cache) (cs : CacheStorage) :
  activate (in_cache CACHE_NAME f cs)
  = List.map (fun nc => (CACHE_NAME, f (snd nc))) (activate cs).
Proof.
  unfold activate, in_cache. induction cs as [|[n c] cs IH]; [reflexivity|].
  cbn [List.map List.filter fst snd].
  destruct (String.eqb_spec n CACHE_NAME) as [->|Hn]; cbn [fst snd negb List.map].
  - rewrite String.eqb_refl. cbn [negb List.map snd]. now rewrite IH.
  - rewrite (proj2 (String.eqb_neq n CACHE_NAME) Hn). cbn [negb]. exact IH.
Qed.

Lemma fetch_all_urls (net : Net) (entries : list (string * Resp)) :
  fetch_all net urlsToCache = Some entries ->
  exists r0 r1 r2 r3 : Resp,
    net "/" = Some r0 /\ net "/index.html" = Some r1
    /\ net "/manifest.json" = Some r2 /\ net "/zentime_icon.png" = Some r3
    /\ resp_ok r1 = true
    /\ entries = [("/", r0); ("/index.html", r1); ("/manifest.json", r2);
                  ("/zentime_icon.png", r3)].
Proof.
  unfold urlsToCache. cbn [fetch_all].
  destruct (net "/") as [r0|]; [|discriminate]. cbn [mbind option_bind].
  destruct (resp_ok r0); [|discriminate].
  destruct (net "/index.html") as [r1|]; [|discriminate]. cbn [mbind option_bind].
  destruct (resp_ok r1) eqn:H1; [|discriminate].
  destruct (net "/manifest.json") as [r2|]; [|discriminate]. cbn [mbind option_bind].
  destruct (resp_ok r2); [|discriminate].
  destruct (net "/zentime_icon.png") as [r3|]; [|discriminate]. cbn [mbind option_bind].
  destruct (resp_ok r3); [|discriminate].
  cbn. intros [= <-]. exists r0, r1, r2, r3. auto 10.
Qed.

Lemma installed_storage (net : Net) (cs cs' : CacheStorage) :
  install net cs = (cs', true) ->
  exists (entries : list (string * Resp)) (c : Cache) (rest : CacheStorage),
    fetch_all net urlsToCache = Some entries
    /\ activate cs' = (CACHE_NAME, put_all entries c) :: rest.
Proof.
  unfold install. destruct (fetch_all net urlsToCache) as [entries|]; [|discriminate].
  intros [= <-]. rewrite activate_in_cache.
  destruct (activate_caches_open cs) as (c & rest & ->).
  exists entries, c. eexists. split; reflexivity.
Qed.

Lemma installed_lookup (net : Net) (entries : list (string * Resp)) (c : Cache) (path : string) :
  fetch_all net urlsToCache = Some entries ->
  In path urlsToCache ->
  put_all entries c !! path = net path.
Proof.
  intros Hf Hin. apply fetch_all_urls in Hf as (r0 & r1 & r2 & r3 & H0 & H1 & H2 & H3 & _ & ->).
  unfold put_all. cbn [fold_left fst snd].
  destruct Hin as [<-|[<-|[<-|[<-|[]]]]].
  - rewrite !lookup_insert_ne by discriminate. now rewrite lookup_insert_eq.
  - rewrite !lookup_insert_ne by discriminate. now rewrite lookup_insert_eq.
  - rewrite !lookup_insert_ne by discriminate. now rewrite lookup_insert_eq.
  - now rewrite lookup_insert_eq.
Qed.

Lemma installed_shell (net : Net) (cs cs' : CacheStorage) :
  install net cs = (cs', true) ->
  exists shell : Resp,
    net "/index.html" = Some shell
    /\ resp_ok shell = true
    /\ caches_match (activate cs') "/index.html" = Some shell.
Proof.
  intros Hi. destruct (installed_storage net cs cs' Hi) as (entries & c & rest & Hf & Ha).
  pose proof (installed_lookup net entries c "/index.html" Hf) as Hl.
  destruct (fetch_all_urls net entries Hf) as (_ & r1 & _ & _ & _ & H1 & _ & _ & Hok & _).
  exists r1. split; [exact H1|]. split; [exact Hok|].
  rewrite Ha. cbn [caches_match]. rewrite Hl, H1; [reflexivity|].
  unfold urlsToCache. simpl. auto.
Qed.

(** X23. Once the worker has installed and activated, every navigation is
    answered with the page that was fetched for /index.html at install time,
    whatever address is asked for and whether or not the network answers. *)
Theorem navigation_gets_installed_shell (net : Net) (cs cs' : CacheStorage) :
  install net cs = (cs', true) ->
  exists shell : Resp,
    net "/index.html" = Some shell
    /\ resp_ok shell = true
    /\ forall (later : Net) (request : Request),
        mode request = "navigate" ->
        onfetch later (activate cs') request = Some shell.
Proof.
  intros Hi. destruct (installed_shell net cs cs' Hi) as (shell & Hnet & Hok & Hshell).
  exists shell. split; [exact Hnet|]. split; [exact Hok|].
  intros later request Hm. unfold onfetch. rewrite Hm. cbn [String.eqb Ascii.eqb Bool.eqb].
  now rewrite Hshell.
Qed.

Lemma navigation_gets_installed_shell_witness :
  exists shell : Resp,
    online "/index.html" = Some shell
    /\ resp_ok shell = true
    /\ forall (later : Net) (request : Request),
        mode request = "navigate" ->
        onfetch later (activate (fst (install online []))) request = Some shell.
Proof.
  apply (navigation_gets_installed_shell online [] (fst (install online []))).
  reflexivity.
Defined.

(** X24. Once the worker has installed and activated, nothing fails while
    offline: every request gets a response, and a request for one of the
    precached files gets the copy fetched at install time. *)
Theorem offline_requests_are_answered (net : Net) (cs cs' : CacheStorage) :
  install net cs = (cs', true) ->
  forall request : Request,
    is_Some (onfetch offline (activate cs') request)
    /\ (mode request = "navigate" \/ ~ In (url request) urlsToCache
        \/ onfetch offline (activate cs') request = net (url request)).
Proof.
  intros Hi request.
  destruct (installed_shell net cs cs' Hi) as (shell & _ & _ & Hshell).
  destruct (installed_storage net cs cs' Hi) as (entries & c & rest & Hf & Ha).
  unfold onfetch. destruct (String.eqb_spec (mode request) "navigate") as [Hm|Hm].
  - rewrite Hshell. split; [eauto | auto].
  - change (offline (url request)) with (@None Resp). split.
    + destruct (caches_match (activate cs') (url request)); [eauto|]. rewrite Hshell. eauto.
    + destruct (in_dec string_dec (url request) urlsToCache) as [Hin|Hout]; [|auto].
      right. right. rewrite Ha. cbn [caches_match].
      rewrite (installed_lookup net entries c (url request) Hf Hin).
      apply fetch_all_urls in Hf as (r0 & r1 & r2 & r3 & H0 & H1 & H2 & H3 & _).
      destruct Hin as [<-|[<-|[<-|[<-|[]]]]]; rewrite ?H0, ?H1, ?H2, ?H3; reflexivity.
Qed.

Lemma offline_requests_are_answered_witness :
  let request := {| mode := "no-cors"; url := "/manifest.json" |} in
  is_Some (onfetch offline (activate (fst (install online []))) request)
  /\ (mode request = "navigate" \/ ~ In (url request) urlsToCache
      \/ onfetch offline (activate (fst (install online []))) request = online (url request)).
Proof.
  intros request.
  apply (offline_requests_are_answered online [] (fst (install online []))).
  reflexivity.
Defined.

(** X25. An install that fails leaves what the worker serves as it was:
    some precached file could not be fetched with an ok status, nothing was
    stored, and every request is answered as before the install. *)
Theorem failed_install_changes_nothing (net : Net) (cs cs' : CacheStorage) :
  install net cs = (cs', false) ->
  fetch_all net urlsToCache = None
  /\ forall (later : Net) (request : Request),
      onfetch later cs' request = onfetch later cs request.
Proof.
  unfold install. destruct (fetch_all net urlsToCache) as [entries|]; [discriminate|].
  intros [= <-]. split; [reflexivity|].
  intros later request. unfold onfetch. now rewrite !caches_open_match.
Qed.

Lemma failed_install_changes_nothing_witness :
  let request := {| mode := "navigate"; url := "/" |} in
  fetch_all offline urlsToCache = None
  /\ onfetch online (fst (install offline [])) request = onfetch online [] request.
Proof.
  intros request.
  destruct (failed_install_changes_nothing offline [] (fst (install offline [])) eq_refl)
    as [Hnone Hsame].
  split; [exact Hnone | apply Hsame].
Defined.

(** ** The tick, once more *)

(** X18. When a tick starts the tone, the task it makes the active alarm is
    the first task in stored order that is enabled, not completed and due at
    the current minute, and it is not the task that was already ringing. *)
Theorem tick_picks_first_due_task (hh mm : nat) (s s' : App) :
  tick hh mm s = (s', true) ->
  exists (t : JsObj) (i : nat),
    s' = setActiveAlarm (Some t) s
    /\ tasks s !! i = Some t
    /\ truthy (get t "alarmEnabled") = true
    /\ truthy (get t "completed") = false
    /\ get t "reminderTime" = JString (timeStr hh mm)
    /\ get t "id" <> active_id (activeAlarm s)
    /\ forall (j : nat) (t' : JsObj),
        (j < i)%nat -> tasks s !! j = Some t' -> is_ringing (timeStr hh mm) t' = false.
Proof.
  intros Htick.
  destruct (tick_activates hh mm s s' Htick) as (t & i & Hact & Hi & He & Hc & Hr & Hfirst).
  exists t, i. unfold tick in Htick.
  destruct (List.find _ (tasks s)) as [r|] eqn:Hfind; [|discriminate].
  destruct (negb (strict_eq (active_id (activeAlarm s)) (get r "id"))) eqn:Hid; [|discriminate].
  injection Htick as <-. cbn [activeAlarm setActiveAlarm] in Hact. injection Hact as ->.
  repeat split; auto.
  apply negb_true_iff in Hid. unfold strict_eq in Hid.
  apply bool_decide_eq_false_1 in Hid. congruence.
Qed.

Lemma tick_picks_first_due_task_witness :
  exists (t : JsObj) (i : nat),
    setActiveAlarm (Some standup) (sample_app [standup; review] (Mock "gemini"))
    = setActiveAlarm (Some t) (sample_app [standup; review] (Mock "gemini"))
    /\ tasks (sample_app [standup; review] (Mock "gemini")) !! i = Some t
    /\ truthy (get t "alarmEnabled") = true
    /\ truthy (get t "completed") = false
    /\ get t "reminderTime" = JString (timeStr 9 0)
    /\ get t "id" <> active_id (activeAlarm (sample_app [standup; review] (Mock "gemini")))
    /\ forall (j : nat) (t' : JsObj),
        (j < i)%nat ->
        tasks (sample_app [standup; review] (Mock "gemini")) !! j = Some t' ->
        is_ringing (timeStr 9 0) t' = false.
Proof.
  apply (tick_picks_first_due_task 9 0 (sample_app [standup; review] (Mock "gemini"))).
  reflexivity.
Defined.

(** ** A vendor that answers with an error status *)

Lemma api_error_message (vendor : string) {A} (response : Response A) :
  message (api_error vendor response)
  = vendor +:+ " API error: " +:+ pretty (status response) +:+ " " +:+ statusText response.
Proof. reflexivity. Qed.

(** X26. When the vendor answers with a status that is not ok, the adapter
    throws without reading the body, and the handler leaves the tasks as they
    were and answers with "Error: <vendor> API error: <status> <statusText>",
    or with the configure-your-API-key text when that message contains
    "API key". *)
Theorem http_failure_is_reported
    (h : Host) (net : Network) (input : string) (s : App) :
  blank input = false ->
  (forall (key : string) (response : Response AIResponse),
      provider s = Gemini key -> gemini_fetch net = Ok response -> ok response = false ->
      let shown := if includes (message (api_error "Gemini" response)) "API key"
                   then configure_hint
                   else "Error: " +:+ message (api_error "Gemini" response) in
      handleAiCommand h net input s = Some (push model shown (push user input s)))
  /\ (forall (key : string) (response : Response Message),
         provider s = OpenAI key -> openai_fetch net = Ok response -> ok response = false ->
         let shown := if includes (message (api_error "OpenAI" response)) "API key"
                      then configure_hint
                      else "Error: " +:+ message (api_error "OpenAI" response) in
         handleAiCommand h net input s = Some (push model shown (push user input s))).
Proof.
  intros Hb.
  assert (Hshow : forall (vendor : string) (A : Type) (response : Response A),
             vendor = "Gemini" \/ vendor = "OpenAI" ->
             errorMessage (api_error vendor response)
             = if includes (message (api_error vendor response)) "API key"
               then configure_hint
               else "Error: " +:+ message (api_error vendor response)).
  { intros vendor A response Hv. unfold errorMessage.
    assert (Hne : String.eqb (message (api_error vendor response)) "" = false)
      by (destruct Hv as [ -> | -> ]; reflexivity).
    rewrite Hne. cbn [negb andb]. reflexivity. }
  split.
  - intros key response Hp Hf Hok shown. subst shown. rewrite <- Hshow by auto.
    apply handle_throw; [exact Hb|]. rewrite Hp.
    unfold getAIResponse, AIService.generateContent, GeminiProvider.generateContent.
    rewrite Hf. simpl. now rewrite Hok.
  - intros key response Hp Hf Hok shown. subst shown. rewrite <- Hshow by auto.
    apply handle_throw; [exact Hb|]. rewrite Hp.
    unfold getAIResponse, AIService.generateContent, OpenAIProvider.generateContent.
    rewrite Hf. simpl. now rewrite Hok.
Qed.

Lemma http_failure_is_reported_witness :
  let s := sample_app [report] (OpenAI "sk") in
  let response := {| ok := false; status := 503; statusText := "Service Unavailable";
                     json := {| content := JNull; tool_calls := None |} |} in
  handleAiCommand sample_host (openai_says response) "hi" s
  = Some (push model "Error: OpenAI API error: 503 Service Unavailable" (push user "hi" s)).
Proof.
  intros s response.
  exact (proj2 (http_failure_is_reported sample_host (openai_says response) "hi" s eq_refl)
           "sk" response eq_refl eq_refl eq_refl).
Defined.

Lemma tick_settles (hh mm : nat) (s : App) :
  fst (tick hh mm (fst (tick hh mm s))) = fst (tick hh mm s).
Proof.
  unfold tick at 2 3. destruct (List.find _ (tasks s)) as [t|] eqn:Hfind.
  - destruct (negb (strict_eq (active_id (activeAlarm s)) (get t "id"))) eqn:Hid; cbn [fst].
    + unfold tick. cbn [tasks setActiveAlarm activeAlarm active_id]. rewrite Hfind.
      unfold strict_eq. rewrite bool_decide_eq_true_2 by reflexivity. reflexivity.
    + unfold tick. rewrite Hfind, Hid. reflexivity.
  - cbn [fst]. unfold tick. rewrite Hfind. reflexivity.
Qed.

Lemma ticks_same_minute (hh mm : nat) (k : nat) (s : App) :
  ticks (repeat (hh, mm) k) (fst (tick hh mm s)) = fst (tick hh mm s).
Proof.
  induction k as [|k IH]; [reflexivity|]. cbn [repeat ticks]. now rewrite tick_settles.
Qed.

(** X19. While nobody dismisses the alarm or edits the tasks, a minute rings
    at most once: after the first tick of a minute, no later tick of the same
    minute starts the tone or changes the active alarm, however many there
    are. *)
Theorem same_minute_rings_once (hh mm : nat) (k : nat) (s : App) :
  let after := ticks (repeat (hh, mm) k) (fst (tick hh mm s)) in
  tick hh mm after = (fst (tick hh mm s), false).
Proof.
  intros after. subst after. rewrite ticks_same_minute.
  rewrite (surjective_pairing (tick hh mm (fst (tick hh mm s)))).
  now rewrite tick_settles, tick_twice.
Qed.

(** Stored values that are empty are taken as missing: startup gives the
    defaults and [JSON.parse] is not asked. *)
Example empty_values_give_defaults :
  let ls : Storage :=
    <["zentime-tasks-v2" := ""]> (<["zentime-profile" := ""]> {[ "zentime-general-notes" := "" ]}) in
  JSON_parse sample_host "" = Throw syntax_error
  /\ startup sample_host ls
     = Ok {| tasks := [];
             profile := default_profile sample_host;
             generalNotes := [];
             chatHistory := [];
             activeAlarm := None;
             provider := AIService.createProvider ls |}.
Proof. intros ls. split; reflexivity. Qed.
